(** * RetirePro: the year-by-year retirement simulation

    A shallow embedding of [runSimulation] (src/utils/calculations.ts) and
    of the records of the types module it works on, followed by the
    properties of the engine stated in the specification.

    Numbers.  A TypeScript [number] that carries money or a rate is kept
    abstract: the engine is written over an interface [Number] offering
    exactly the operations the source applies to such values ([+ - * /],
    [Math.pow] with the loop index as exponent, [Math.round], the
    comparisons and the literals).  Every property that only depends on the
    control flow of the engine is proved for an arbitrary interpretation of
    that interface.  There are two interpretations.  [B64_Number] is the
    arithmetic of the code: IEEE 754 binary64 with rounding to nearest, ties
    to even, signed zeros, infinities and NaN, as specified by the Standard
    Library's [SpecFloat].  [Q_Number] is exact rational arithmetic, the
    arithmetic the code approximates; it is used to run the scenarios of the
    specification, whose numbers are small integers, and to state what the
    formulas of the engine give when no operation rounds.

    Ages and calendar years are integers ([Z]); a nullable age is an
    [option Z].  The calendar year that the engine reads from the clock is
    a parameter of the embedding.  A [breakdown] object is the finite map
    of its own properties, from names to numbers; an assignment
    [breakdown[name] = value] is [setProperty].  Three locals of the source
    that are written but never read ([streamYearsActive],
    [totalAssetGrowth], [totalContributions]) have no counterpart here.

    The file has two embeddings of the engine: [runSimulation], on the
    values of the assets, on which the properties of the computation are
    stated; and [runSimulationM], on a store of objects, which makes the
    copy on entry and the in-place updates explicit and is proved to
    compute [runSimulation]. *)

From stdpp Require Import base option list gmap strings.
From Stdlib Require Import ZArith QArith Qround Qpower Lia.
From Stdlib Require SpecFloat.

Local Open Scope Z_scope.

(** ** The arithmetic the engine uses *)

Class Number (num : Type) := {
  num_of_Z : Z -> num;                 (* numeric literals *)
  num_add : num -> num -> num;
  num_sub : num -> num -> num;
  num_mul : num -> num -> num;
  num_div : num -> num -> num;
  num_pow : num -> nat -> num;         (* Math.pow(x, i), i the loop index *)
  num_round : num -> num;              (* Math.round *)
  num_ltb : num -> num -> bool;        (* a < b *)
  num_leb : num -> num -> bool;        (* a <= b *)
  (* the two facts about the order that the properties below rely on:
     a < b excludes a >= b, and a < b <= c gives a < c *)
  num_ltb_not_geb : forall a b, num_ltb a b = true -> num_leb b a = false;
  num_ltb_leb_trans : forall a b c,
    num_ltb a b = true -> num_leb b c = true -> num_ltb a c = true
}.

Declare Scope num_scope.
Delimit Scope num_scope with num.
Notation "a + b" := (num_add a b) : num_scope.
Notation "a - b" := (num_sub a b) : num_scope.
Notation "a * b" := (num_mul a b) : num_scope.
Notation "a / b" := (num_div a b) : num_scope.
Notation "a <? b" := (num_ltb a b) : num_scope.
Notation "a <=? b" := (num_leb a b) : num_scope.
Notation "a >? b" := (num_ltb b a) : num_scope.
Notation "a >=? b" := (num_leb b a) : num_scope.
Notation "0" := (num_of_Z 0%Z) : num_scope.
Notation "1" := (num_of_Z 1%Z) : num_scope.
Notation "12" := (num_of_Z 12%Z) : num_scope.
Notation "100" := (num_of_Z 100%Z) : num_scope.

(** ** Data model (the types module) *)

Inductive AssetType := FOUR_01K | ROTH_IRA | BROKERAGE | SAVINGS.

Section Types.
Context {num : Type}.

Record Asset := mkAsset {
  asset_id : string;
  asset_name : string;
  balance : num;
  contribution : num;   (* annual *)
  returnRate : num;     (* annual % *)
  asset_type : AssetType
}.

Record IncomeStream := mkIncomeStream {
  stream_id : string;
  stream_name : string;
  monthlyAmount : num;
  startAge : Z;
  endAge : Z;
  growthRate : num;     (* annual COLA % *)
  isTaxable : bool
}.

Record FinancialSettings := mkSettings {
  currentAge : Z;
  retirementAge : Z;
  planningHorizon : Z;
  monthlySpending : num;
  inflationRate : num;
  preRetirementReturn : num
}.

Record YearData := mkYearData {
  age : Z;
  year : Z;
  expenses : num;
  totalIncome : num;
  portfolioBalance : num;
  shortfall : num;
  withdrawals : num;
  breakdown : gmap string num
}.

Record SimulationResult := mkResult {
  success : bool;
  depletionAge : option Z;
  finalBalance : num;
  data : list YearData
}.

(** [asset.balance = b] on a record value. *)
Definition set_balance (a : Asset) (b : num) : Asset :=
  {| asset_id := asset_id a; asset_name := asset_name a; balance := b;
     contribution := contribution a; returnRate := returnRate a;
     asset_type := asset_type a |}.
End Types.

Arguments Asset : clear implicits.
Arguments IncomeStream : clear implicits.
Arguments FinancialSettings : clear implicits.
Arguments YearData : clear implicits.
Arguments SimulationResult : clear implicits.

(** ** The engine *)

Section Engine.
Context {num : Type} `{!Number num}.
Local Open Scope num_scope.

(** [xs.reduce((sum, a) => sum + a.balance, 0)] *)
Definition sumBalances (assets : list (Asset num)) : num :=
  fold_left (fun sum a => sum + balance a) assets 0.

(** Truthiness of [!depletionAge] for a [number | null] holding an
    integer age: [null] and [0] are falsy. *)
Definition falsy (d : option Z) : bool :=
  match d with
  | None => true
  | Some a => (a =? 0)%Z
  end.

(** *** Step 2 of the loop body: income streams *)

(** [currentAge >= stream.startAge && currentAge <= stream.endAge] *)
Definition streamActive (currentAge : Z) (stream : IncomeStream num) : bool :=
  (startAge stream <=? currentAge)%Z && (currentAge <=? endAge stream)%Z.

(** [stream.monthlyAmount * 12 * Math.pow(1 + stream.growthRate / 100, i)] *)
Definition annualAmount (i : nat) (stream : IncomeStream num) : num :=
  monthlyAmount stream * 12 * num_pow (1 + growthRate stream / 100) i.

(** [obj[key] = value] for a number [value] and an object [obj] created by
    [{}].  The key "__proto__" names the accessor that [obj] inherits from
    [Object.prototype], whose setter ignores a value that is neither an
    object nor [null]: the assignment creates no property.  Under any other
    key the value becomes an own property of [obj]. *)
Definition setProperty (key : string) (value : num) (obj : gmap string num)
    : gmap string num :=
  if decide (key = "__proto__") then obj else <[key := value]> obj.

(** One call of the [forEach] callback on the pair
    [(totalFixedIncome, breakdown)]. *)
Definition incomeStep (currentAge : Z) (i : nat)
    (acc : num * gmap string num) (stream : IncomeStream num)
    : num * gmap string num :=
  if streamActive currentAge stream then
    (acc.1 + annualAmount i stream,
     setProperty (stream_name stream) (num_round (annualAmount i stream)) acc.2)
  else acc.

Definition processIncomeStreams (currentAge : Z) (i : nat)
    (incomeStreams : list (IncomeStream num)) : num * gmap string num :=
  fold_left (incomeStep currentAge i) incomeStreams (0, ∅).

(** *** Step 3: growth and contributions *)

Definition growAsset (isRetired : bool) (inflationMultiplier : num)
    (asset : Asset num) : Asset num :=
  let growth := balance asset * (returnRate asset / 100) in
  let asset := set_balance asset (balance asset + growth) in
  if negb isRetired then
    let annualContribution := contribution asset * inflationMultiplier in
    set_balance asset (balance asset + annualContribution)
  else asset.

(** *** Step 4: withdrawal need *)

Definition withdrawalNeed (isRetired : bool)
    (requiredAnnualExpense totalFixedIncome : num) : num :=
  if isRetired then
    let gap := requiredAnnualExpense - totalFixedIncome in
    if gap >? 0 then gap else 0
  else 0.

(** *** Step 5: the withdrawal *)

Record Withdrawal := mkWithdrawal {
  w_assets : list (Asset num);        (* currentAssets afterwards *)
  w_actualWithdrawal : num;
  w_shortage : num;
  w_depletionAge : option Z
}.

Definition markDepleted (depletionAge : option Z) (currentAge : Z) : option Z :=
  if falsy depletionAge then Some currentAge else depletionAge.

Definition executeWithdrawal (withdrawalNeeded : num) (currentAge : Z)
    (currentAssets : list (Asset num)) (depletionAge : option Z) : Withdrawal :=
  let totalAvailable := sumBalances currentAssets in
  if (withdrawalNeeded >? 0) && (totalAvailable >? 0) then
    if totalAvailable >=? withdrawalNeeded then
      {| w_assets :=
           map (fun asset =>
                  let share := balance asset / totalAvailable in
                  set_balance asset (balance asset - withdrawalNeeded * share))
               currentAssets;
         w_actualWithdrawal := withdrawalNeeded;
         w_shortage := 0;
         w_depletionAge := depletionAge |}
    else
      {| w_assets := map (fun asset => set_balance asset 0) currentAssets;
         w_actualWithdrawal := totalAvailable;
         w_shortage := withdrawalNeeded - totalAvailable;
         w_depletionAge := markDepleted depletionAge currentAge |}
  else if (withdrawalNeeded >? 0) && (totalAvailable <=? 0) then
    {| w_assets := currentAssets;
       w_actualWithdrawal := 0;
       w_shortage := withdrawalNeeded;
       w_depletionAge := markDepleted depletionAge currentAge |}
  else
    {| w_assets := currentAssets;
       w_actualWithdrawal := 0;
       w_shortage := 0;
       w_depletionAge := depletionAge |}.

(** *** One iteration of the loop *)

(** The variables that live across iterations. *)
Record LoopState := mkLoop {
  l_currentAssets : list (Asset num);
  l_portfolioBalance : num;
  l_depletionAge : option Z;
  l_data : list (YearData num)
}.

(** The locals of one iteration, named as in the source. *)
Record Year := mkYear {
  y_currentAge : Z;
  y_currentYear : Z;
  y_isRetired : bool;
  y_inflationMultiplier : num;
  y_requiredAnnualExpense : num;
  y_totalFixedIncome : num;
  y_grown : list (Asset num);           (* currentAssets after step 3 *)
  y_withdrawalNeeded : num;
  y_totalAvailable : num;
  y_actualWithdrawal : num;
  y_shortage : num;
  y_breakdown : gmap string num;        (* at the time of data.push *)
  y_currentAssets : list (Asset num);   (* currentAssets after step 5 *)
  y_depletionAge : option Z;
  y_portfolioBalance : num
}.

(** The two assignments after step 5; their keys are literals other than
    "__proto__", so that each creates or overwrites a property. *)
Definition finishBreakdown (breakdown : gmap string num)
    (actualWithdrawal shortage : num) : gmap string num :=
  let breakdown := <["Portfolio Withdrawals" := num_round actualWithdrawal]> breakdown in
  if shortage >? 0 then <["Income Shortage" := num_round shortage]> breakdown
  else breakdown.

Definition simulateYear (settings : FinancialSettings num)
    (incomeStreams : list (IncomeStream num)) (startYear : Z) (i : nat)
    (currentAssets : list (Asset num)) (depletionAge : option Z) : Year :=
  let currentAge := (currentAge settings + Z.of_nat i)%Z in
  let currentYear := (startYear + Z.of_nat i)%Z in
  let isRetired := (retirementAge settings <=? currentAge)%Z in
  let inflationMultiplier := num_pow (1 + inflationRate settings / 100) i in
  let requiredAnnualExpense := monthlySpending settings * 12 * inflationMultiplier in
  let '(totalFixedIncome, breakdown) :=
    processIncomeStreams currentAge i incomeStreams in
  let grown := map (growAsset isRetired inflationMultiplier) currentAssets in
  let withdrawalNeeded :=
    withdrawalNeed isRetired requiredAnnualExpense totalFixedIncome in
  let w := executeWithdrawal withdrawalNeeded currentAge grown depletionAge in
  {| y_currentAge := currentAge;
     y_currentYear := currentYear;
     y_isRetired := isRetired;
     y_inflationMultiplier := inflationMultiplier;
     y_requiredAnnualExpense := requiredAnnualExpense;
     y_totalFixedIncome := totalFixedIncome;
     y_grown := grown;
     y_withdrawalNeeded := withdrawalNeeded;
     y_totalAvailable := sumBalances grown;
     y_actualWithdrawal := w_actualWithdrawal w;
     y_shortage := w_shortage w;
     y_breakdown := finishBreakdown breakdown (w_actualWithdrawal w) (w_shortage w);
     y_currentAssets := w_assets w;
     y_depletionAge := w_depletionAge w;
     y_portfolioBalance := sumBalances (w_assets w) |}.

(** The record pushed on [data]. *)
Definition yearData (y : Year) : YearData num :=
  {| age := y_currentAge y;
     year := y_currentYear y;
     expenses := num_round (y_requiredAnnualExpense y);
     totalIncome := num_round (y_totalFixedIncome y + y_actualWithdrawal y);
     portfolioBalance := num_round (y_portfolioBalance y);
     withdrawals := num_round (y_actualWithdrawal y);
     shortfall := num_round (y_shortage y);
     breakdown := y_breakdown y |}.

Definition loopBody (settings : FinancialSettings num)
    (incomeStreams : list (IncomeStream num)) (startYear : Z) (i : nat)
    (st : LoopState) : LoopState :=
  let y := simulateYear settings incomeStreams startYear i
             (l_currentAssets st) (l_depletionAge st) in
  {| l_currentAssets := y_currentAssets y;
     l_portfolioBalance := y_portfolioBalance y;
     l_depletionAge := y_depletionAge y;
     l_data := l_data st ++ [yearData y] |}.

(** [for (let i = i0; i < i0 + n; i++) body] *)
Fixpoint loop (settings : FinancialSettings num)
    (incomeStreams : list (IncomeStream num)) (startYear : Z)
    (n : nat) (i : nat) (st : LoopState) : LoopState :=
  match n with
  | O => st
  | S n' =>
      loop settings incomeStreams startYear n' (S i)
        (loopBody settings incomeStreams startYear i st)
  end.

(** Number of iterations of [for (i = 0; i < yearsToRun; i++)]. *)
Definition yearsToRun (settings : FinancialSettings num) : Z :=
  (planningHorizon settings - currentAge settings + 1)%Z.

Definition initialState (assets : list (Asset num)) : LoopState :=
  {| l_currentAssets := assets;
     l_portfolioBalance := sumBalances assets;
     l_depletionAge := None;
     l_data := [] |}.

(** [runSimulation]; [startYear] is the value read from the clock, and
    [assets] the values of the objects copied on entry. *)
Definition runSimulation (startYear : Z) (settings : FinancialSettings num)
    (assets : list (Asset num)) (incomeStreams : list (IncomeStream num))
    : SimulationResult num :=
  let st := loop settings incomeStreams startYear
              (Z.to_nat (yearsToRun settings)) 0 (initialState assets) in
  {| success := bool_decide (l_depletionAge st = None);
     depletionAge := l_depletionAge st;
     finalBalance := l_portfolioBalance st;
     data := l_data st |}.

(** The financial fields of a year record: all but the calendar year. *)
Definition financial (yd : YearData num)
    : Z * num * num * num * num * num * gmap string num :=
  (age yd, expenses yd, totalIncome yd, portfolioBalance yd, withdrawals yd,
   shortfall yd, breakdown yd).

(** The state at the start of iteration [k] of a run on [assets], and the
    locals of that iteration. *)
Definition stateAt (settings : FinancialSettings num)
    (incomeStreams : list (IncomeStream num)) (startYear : Z)
    (assets : list (Asset num)) (k : nat) : LoopState :=
  loop settings incomeStreams startYear k 0%nat (initialState assets).

Definition yearAt (settings : FinancialSettings num)
    (incomeStreams : list (IncomeStream num)) (startYear : Z)
    (assets : list (Asset num)) (k : nat) : Year :=
  let st := stateAt settings incomeStreams startYear assets k in
  simulateYear settings incomeStreams startYear k
    (l_currentAssets st) (l_depletionAge st).
End Engine.

(** ** Exact rational arithmetic

    The interpretation of [Number] in [Q]: the arithmetic that the code
    approximates, without rounding, overflow or NaN.  [Math.pow(x, i)] is
    the exact power and [Math.round(x)] is [floor (x + 1/2)].  A division by
    zero, which [Q] sends to 0, does not occur in the engine: it divides by
    the literal 100 and, in the proportional withdrawal, by a
    [totalAvailable] that was tested positive.  What is proved on this
    instance is a property of the formulas of the engine, which the code
    computes up to rounding.  The arithmetic of the code itself is
    [B64_Number] below. *)

Definition Qltb (a b : Q) : bool :=
  (Qnum a * QDen b <? Qnum b * QDen a)%Z.

(** [Math.round]: the nearest integer, a tie going up. *)
Definition Qround_half_up (x : Q) : Q := inject_Z (Qfloor (x + (1 # 2))).

Lemma Qltb_not_geb (a b : Q) : Qltb a b = true -> Qle_bool b a = false.
Proof.
  unfold Qltb, Qle_bool. intros H%Z.ltb_lt. apply Z.leb_gt. exact H.
Qed.

Lemma Qltb_leb_trans (a b c : Q) :
  Qltb a b = true -> Qle_bool b c = true -> Qltb a c = true.
Proof.
  unfold Qltb. intros H1%Z.ltb_lt H2%Qle_bool_iff. apply Z.ltb_lt.
  exact (Qlt_le_trans a b c H1 H2).
Qed.

#[export] Instance Q_Number : Number Q := {|
  num_of_Z := inject_Z;
  num_add := Qplus;
  num_sub := Qminus;
  num_mul := Qmult;
  num_div := Qdiv;
  num_pow := fun x i => Qpower x (Z.of_nat i);
  num_round := Qround_half_up;
  num_ltb := Qltb;
  num_leb := Qle_bool;
  num_ltb_not_geb := Qltb_not_geb;
  num_ltb_leb_trans := Qltb_leb_trans
|}.

(** ** Binary64 arithmetic

    The interpretation of [Number] in the numbers of the code: IEEE 754
    binary64, as specified by [SpecFloat] with a precision of 53 bits and
    [emax = 1024].  Sums, differences, products and quotients are rounded
    to nearest, ties to even; [<] and [<=] are false on NaN.

    [Math.round(x)] is the integer nearest to [x], a tie going up; it keeps
    the sign of a zero result, and leaves NaN, the infinities and the
    numbers that are integers already as they are.

    [Math.pow(x, i)] is 1 for [i = 0]; for other exponents ECMAScript leaves
    the result to the implementation, up to an approximation.  [pow]
    multiplies [i] times, which is the exact result whenever that is a
    binary64 number, as for the powers of 1 (a rate of 0).  What is stated
    on this instance either is about a first year ([i = 0]) with rates 0,
    or is about step 5 for whatever need and balances the year has, and so
    does not depend on the powers. *)

Module Binary64.
Import SpecFloat.















End Binary64.


(** ** The scenarios of the specification *)

Module Scenario.
Definition asset (b c r : Q) : Asset Q :=
  {| asset_id := "a1"; asset_name := "Savings"; balance := b;
     contribution := c; returnRate := r; asset_type := SAVINGS |}.

(** Scenario B: one asset of 1000, no income, 200 a month, ages 65-66. *)
Definition settingsB : FinancialSettings Q :=
  {| currentAge := 65; retirementAge := 65; planningHorizon := 66;
     monthlySpending := 200%Q; inflationRate := 0%Q;
     preRetirementReturn := 0%Q |}.
Definition assetsB : list (Asset Q) := [asset 1000%Q 0%Q 0%Q].

(** Scenario C: two years of contributions of 10000 at 5%. *)
Definition settingsC (spending : Q) : FinancialSettings Q :=
  {| currentAge := 60; retirementAge := 62; planningHorizon := 62;
     monthlySpending := spending; inflationRate := 0%Q;
     preRetirementReturn := 0%Q |}.
Definition assetsC : list (Asset Q) := [asset 0%Q 10000%Q 5%Q].
End Scenario.

(** ** The engine on a store of objects

    [runSimulation] above works on the values of the asset objects.  In
    the source the assets are objects that the caller still holds: the
    engine copies each of them ([assets.map(a => ({ ...a }))]) and then
    updates the copies in place.  [runSimulationM] is the same code over
    an explicit store, in which an asset or an income stream is named by
    a location; reads, writes and allocations are the only accesses to
    the store. *)

Definition loc := positive.

Section Store.
Context {num : Type} `{!Number num}.
Local Open Scope num_scope.

Record Store := mkStore {
  assetObjs : gmap loc (Asset num);
  streamObjs : gmap loc (IncomeStream num)
}.

(** State and failure; a failure is a read through a dangling reference,
    which a well-typed caller cannot cause. *)
Definition M (A : Type) : Type := Store -> option (A * Store).

Definition ret {A} (x : A) : M A := fun s => Some (x, s).

Definition bind {A B} (m : M A) (k : A -> M B) : M B :=
  fun s => match m s with
           | Some (x, s') => k x s'
           | None => None
           end.

Notation "x <- m ;; k" := (bind m (fun x => k))
  (at level 100, m at next level, right associativity).

Definition readAsset (l : loc) : M (Asset num) :=
  fun s => match assetObjs s !! l with
           | Some a => Some (a, s)
           | None => None
           end.

Definition readStream (l : loc) : M (IncomeStream num) :=
  fun s => match streamObjs s !! l with
           | Some x => Some (x, s)
           | None => None
           end.

Definition putAsset (l : loc) (a : Asset num) (s : Store) : Store :=
  {| assetObjs := <[l := a]> (assetObjs s); streamObjs := streamObjs s |}.

(** A new object, at a location not in use. *)
Definition newAsset (a : Asset num) : M loc :=
  fun s => let l := fresh (dom (assetObjs s)) in Some (l, putAsset l a s).

(** [asset.balance = b] through the reference [l]. *)
Definition setBalance (l : loc) (b : num) : M unit :=
  a <- readAsset l ;; fun s => Some (tt, putAsset l (set_balance a b) s).

Fixpoint forEach {A} (f : A -> M unit) (xs : list A) : M unit :=
  match xs with
  | [] => ret tt
  | x :: xs' => _ <- f x ;; forEach f xs'
  end.

Fixpoint mapM {A B} (f : A -> M B) (xs : list A) : M (list B) :=
  match xs with
  | [] => ret []
  | x :: xs' => y <- f x ;; ys <- mapM f xs' ;; ret (y :: ys)
  end.

Fixpoint reduceM {A B} (f : B -> A -> M B) (xs : list A) (acc : B) : M B :=
  match xs with
  | [] => ret acc
  | x :: xs' => acc' <- f acc x ;; reduceM f xs' acc'
  end.

(** [assets.map(a => ({ ...a }))] *)
Definition copyAssets (assets : list loc) : M (list loc) :=
  mapM (fun l => a <- readAsset l ;; newAsset a) assets.

Definition sumBalancesM (assets : list loc) : M num :=
  reduceM (fun sum l => a <- readAsset l ;; ret (sum + balance a)) assets 0.

Definition processIncomeStreamsM (currentAge : Z) (i : nat)
    (incomeStreams : list loc) : M (num * gmap string num) :=
  reduceM (fun acc l => stream <- readStream l ;;
                        ret (incomeStep currentAge i acc stream))
          incomeStreams (0, ∅).

Definition growAssetM (isRetired : bool) (inflationMultiplier : num)
    (l : loc) : M unit :=
  asset <- readAsset l ;;
  let growth := balance asset * (returnRate asset / 100) in
  _ <- setBalance l (balance asset + growth) ;;
  if negb isRetired then
    asset <- readAsset l ;;
    let annualContribution := contribution asset * inflationMultiplier in
    setBalance l (balance asset + annualContribution)
  else ret tt.

Definition withdrawShareM (withdrawalNeeded totalAvailable : num)
    (l : loc) : M unit :=
  asset <- readAsset l ;;
  let share := balance asset / totalAvailable in
  setBalance l (balance asset - withdrawalNeeded * share).

(** Returns [(actualWithdrawal, shortage, depletionAge)]. *)
Definition executeWithdrawalM (withdrawalNeeded : num) (currentAge : Z)
    (currentAssets : list loc) (depletionAge : option Z)
    : M (num * num * option Z) :=
  totalAvailable <- sumBalancesM currentAssets ;;
  if (withdrawalNeeded >? 0) && (totalAvailable >? 0) then
    if totalAvailable >=? withdrawalNeeded then
      _ <- forEach (withdrawShareM withdrawalNeeded totalAvailable)
             currentAssets ;;
      ret (withdrawalNeeded, 0, depletionAge)
    else
      _ <- forEach (fun l => setBalance l 0) currentAssets ;;
      ret (totalAvailable, withdrawalNeeded - totalAvailable,
           markDepleted depletionAge currentAge)
  else if (withdrawalNeeded >? 0) && (totalAvailable <=? 0) then
    ret (0, withdrawalNeeded, markDepleted depletionAge currentAge)
  else ret (0, 0, depletionAge).

Record LoopStateM := mkLoopM {
  m_currentAssets : list loc;
  m_portfolioBalance : num;
  m_depletionAge : option Z;
  m_data : list (YearData num)
}.

Definition loopBodyM (settings : FinancialSettings num)
    (incomeStreams : list loc) (startYear : Z) (i : nat)
    (st : LoopStateM) : M LoopStateM :=
  let currentAge := (currentAge settings + Z.of_nat i)%Z in
  let currentYear := (startYear + Z.of_nat i)%Z in
  let isRetired := (retirementAge settings <=? currentAge)%Z in
  let inflationMultiplier := num_pow (1 + inflationRate settings / 100) i in
  let requiredAnnualExpense := monthlySpending settings * 12 * inflationMultiplier in
  income <- processIncomeStreamsM currentAge i incomeStreams ;;
  let '(totalFixedIncome, breakdown) := income in
  _ <- forEach (growAssetM isRetired inflationMultiplier) (m_currentAssets st) ;;
  let withdrawalNeeded :=
    withdrawalNeed isRetired requiredAnnualExpense totalFixedIncome in
  w <- executeWithdrawalM withdrawalNeeded currentAge (m_currentAssets st)
         (m_depletionAge st) ;;
  let '(actualWithdrawal, shortage, depletionAge) := w in
  let breakdown := finishBreakdown breakdown actualWithdrawal shortage in
  portfolioBalance <- sumBalancesM (m_currentAssets st) ;;
  ret {| m_currentAssets := m_currentAssets st;
         m_portfolioBalance := portfolioBalance;
         m_depletionAge := depletionAge;
         m_data := m_data st ++
           [{| age := currentAge;
               year := currentYear;
               expenses := num_round requiredAnnualExpense;
               totalIncome := num_round (totalFixedIncome + actualWithdrawal);
               portfolioBalance := num_round portfolioBalance;
               withdrawals := num_round actualWithdrawal;
               shortfall := num_round shortage;
               breakdown := breakdown |}] |}.

Fixpoint loopM (settings : FinancialSettings num) (incomeStreams : list loc)
    (startYear : Z) (n : nat) (i : nat) (st : LoopStateM) : M LoopStateM :=
  match n with
  | O => ret st
  | S n' =>
      st' <- loopBodyM settings incomeStreams startYear i st ;;
      loopM settings incomeStreams startYear n' (S i) st'
  end.

Definition runSimulationM (startYear : Z) (settings : FinancialSettings num)
    (assets : list loc) (incomeStreams : list loc)
    : M (SimulationResult num) :=
  currentAssets <- copyAssets assets ;;
  portfolioBalance <- sumBalancesM currentAssets ;;
  st <- loopM settings incomeStreams startYear
          (Z.to_nat (yearsToRun settings)) 0%nat
          {| m_currentAssets := currentAssets;
             m_portfolioBalance := portfolioBalance;
             m_depletionAge := None;
             m_data := [] |} ;;
  ret {| success := bool_decide (m_depletionAge st = None);
         depletionAge := m_depletionAge st;
         finalBalance := m_portfolioBalance st;
         data := m_data st |}.

(** The objects at [ls] hold the values [vs]. *)
Definition pointsTo (s : Store) (ls : list loc) (vs : list (Asset num)) : Prop :=
  Forall2 (fun l v => assetObjs s !! l = Some v) ls vs.

Definition streamsAt (s : Store) (ls : list loc)
    (vs : list (IncomeStream num)) : Prop :=
  Forall2 (fun l v => streamObjs s !! l = Some v) ls vs.

(** [s'] differs from [s] at most in the asset objects at [ls]. *)
Definition sameOutside (ls : list loc) (s s' : Store) : Prop :=
  streamObjs s' = streamObjs s /\
  forall l, l ∉ ls -> assetObjs s' !! l = assetObjs s !! l.

(** A callback that replaces the object at [l] by [g] of its value. *)
Definition updatesWith (f : loc -> M unit) (g : Asset num -> Asset num) : Prop :=
  forall (s : Store) l v,
    assetObjs s !! l = Some v -> f l s = Some (tt, putAsset l (g v) s).
End Store.

Arguments Store : clear implicits.

(** * The callers of the engine *)

(** ** The summary sent with the advisory request ([analyzeRetirementPlan])

    Only the computation of [summarizedData] is modelled; the text of the
    prompt and the remote call are not. *)

Section Summary.
Context {num : Type} `{!Number num}.

Record SummaryRow := mkSummaryRow {
  s_age : Z;
  s_balance : num;
  s_shortfall : num
}.

(** [xs.filter((d, i) => f(d, i))], from index [i] on. *)
Fixpoint filterWithIndex {A} (f : A -> nat -> bool) (xs : list A) (i : nat)
    : list A :=
  match xs with
  | [] => []
  | x :: xs' =>
      if f x i then x :: filterWithIndex f xs' (S i)
      else filterWithIndex f xs' (S i)
  end.

(** [i % 5 === 0 || d.age === settings.retirementAge
     || d.portfolioBalance <= 0] *)
Definition keptInSummary (settings : FinancialSettings num)
    (d : YearData num) (i : nat) : bool :=
  (i mod 5 =? 0)%nat || (age d =? retirementAge settings)%Z
  || (portfolioBalance d <=? 0)%num.

Definition summarizedData (settings : FinancialSettings num)
    (result : SimulationResult num) : list SummaryRow :=
  map (fun d => {| s_age := age d;
                   s_balance := num_round (portfolioBalance d);
                   s_shortfall := num_round (shortfall d) |})
      (filterWithIndex (keptInSummary settings) (data result) 0).
End Summary.

Arguments SummaryRow : clear implicits.

(** ** Scenarios (the App component)

    The state of the component that matters to the engine: the list of
    scenarios and the id of the active one.  An event handler is a function
    on this state; the random ids and the clock it reads are parameters. *)

Section App.
Context {num : Type} `{!Number num}.

(** Modelled from the spec: the declaration of [Scenario] is missing from
    the sources; a scenario bundles the three inputs of the engine with an
    identifier, a name and a creation timestamp, which are the fields the
    component reads and writes. *)
Record Scenario := mkScenario {
  sc_id : string;
  sc_name : string;
  sc_assets : list (Asset num);
  sc_incomeStreams : list (IncomeStream num);
  sc_settings : FinancialSettings num;
  sc_createdAt : Z
}.

Record AppState := mkAppState {
  scenarios : list Scenario;
  activeScenarioId : string
}.

(** How a handler ends: normally, after an [alert], with the [TypeError]
    of reading a field of [undefined], or with the [SyntaxError] of
    [JSON.parse(undefined)]. *)
Inductive Outcome :=
  Done | Alerted (message : string) | TypeError | SyntaxError.

(** [scenarios.find(s => s.id === activeScenarioId) || scenarios[0]];
    [None] is [undefined]. *)
Definition activeScenario (st : AppState) : option Scenario :=
  match list_find (fun s => sc_id s = activeScenarioId st) (scenarios st) with
  | Some (_, s) => Some s
  | None => head (scenarios st)
  end.

(** [scenarios.findIndex(s => s.id === activeScenarioId)] *)
Definition findIndex (st : AppState) : Z :=
  match list_find (fun s => sc_id s = activeScenarioId st) (scenarios st) with
  | Some (i, _) => Z.of_nat i
  | None => -1
  end.

(** [xs[i]] for an integer [i]. *)
Definition at_index {A} (xs : list A) (i : Z) : option A :=
  if (i <? 0)%Z then None else xs !! Z.to_nat i.

Inductive Direction := prev | next.

Definition switchScenario (direction : Direction) (st : AppState)
    : AppState * Outcome :=
  let idx := findIndex st in
  let newIdx := match direction with
                | next => (idx + 1)%Z
                | prev => (idx - 1)%Z
                end in
  let length := Z.of_nat (length (scenarios st)) in
  let newIdx := if (newIdx <? 0)%Z then (length - 1)%Z else newIdx in
  let newIdx := if (length <=? newIdx)%Z then 0%Z else newIdx in
  match at_index (scenarios st) newIdx with
  | Some s => ({| scenarios := scenarios st; activeScenarioId := sc_id s |}, Done)
  | None => (st, TypeError)
  end.

Definition handleDeleteScenario (id : string) (st : AppState)
    : AppState * Outcome :=
  if (length (scenarios st) <=? 1)%nat then
    (st, Alerted "You must have at least one scenario.")
  else
    let newScenarios := filter (fun s => sc_id s <> id) (scenarios st) in
    let st' := {| scenarios := newScenarios;
                  activeScenarioId := activeScenarioId st |} in
    if decide (activeScenarioId st = id) then
      match newScenarios with
      | s :: _ => ({| scenarios := newScenarios;
                      activeScenarioId := sc_id s |}, Done)
      | [] => (st', TypeError)
      end
    else (st', Done).

(** [handleAddScenario]; [newId] is the random id and [now] is
    [Date.now()].  [jsonClone] is [JSON.parse(JSON.stringify(.))] on a
    scenario.  It gives back a scenario with the same fields when every
    number in it is finite and not the negative zero; it writes NaN and the
    infinities as [null] and the negative zero as 0, so that the clone then
    differs from the original.  The handler is defined for any such
    function; nothing is assumed about it here. *)
Definition handleAddScenario (jsonClone : Scenario -> Scenario)
    (newId : string) (now : Z) (st : AppState) : AppState * Outcome :=
  match activeScenario st with
  | Some active =>
      let clone := jsonClone active in
      let newScenario :=
        {| sc_id := newId;
           sc_name := String.append (sc_name active) " (Copy)";
           sc_assets := sc_assets clone;
           sc_incomeStreams := sc_incomeStreams clone;
           sc_settings := sc_settings clone;
           sc_createdAt := now |} in
      ({| scenarios := scenarios st ++ [newScenario];
          activeScenarioId := newId |}, Done)
  | None => (st, SyntaxError)
  end.

(** [Partial<Scenario>]: [None] is a key that is absent. *)
Record ScenarioUpdates := mkUpdates {
  u_id : option string;
  u_name : option string;
  u_assets : option (list (Asset num));
  u_incomeStreams : option (list (IncomeStream num));
  u_settings : option (FinancialSettings num);
  u_createdAt : option Z
}.

(** [{ ...s, ...updates }] *)
Definition applyUpdates (s : Scenario) (updates : ScenarioUpdates) : Scenario :=
  {| sc_id := default (sc_id s) (u_id updates);
     sc_name := default (sc_name s) (u_name updates);
     sc_assets := default (sc_assets s) (u_assets updates);
     sc_incomeStreams := default (sc_incomeStreams s) (u_incomeStreams updates);
     sc_settings := default (sc_settings s) (u_settings updates);
     sc_createdAt := default (sc_createdAt s) (u_createdAt updates) |}.

Definition updateActiveScenario (updates : ScenarioUpdates) (st : AppState)
    : AppState :=
  {| scenarios :=
       map (fun s => if decide (sc_id s = activeScenarioId st)
                     then applyUpdates s updates else s)
           (scenarios st);
     activeScenarioId := activeScenarioId st |}.

Definition assetsUpdate (assets : list (Asset num)) : ScenarioUpdates :=
  {| u_id := None; u_name := None; u_assets := Some assets;
     u_incomeStreams := None; u_settings := None; u_createdAt := None |}.

(** [addAsset]; [newId] is [Math.random().toString()]. *)
Definition addAsset (newId : string) (st : AppState) : AppState * Outcome :=
  match activeScenario st with
  | Some active =>
      let newAsset :=
        {| asset_id := newId; asset_name := "New Account";
           balance := num_of_Z 0; contribution := num_of_Z 0;
           returnRate := num_of_Z 7; asset_type := BROKERAGE |} in
      (updateActiveScenario (assetsUpdate (sc_assets active ++ [newAsset])) st,
       Done)
  | None => (st, TypeError)
  end.

Definition removeAsset (id : string) (st : AppState) : AppState * Outcome :=
  match activeScenario st with
  | Some active =>
      (updateActiveScenario
         (assetsUpdate (filter (fun a => asset_id a <> id) (sc_assets active)))
         st,
       Done)
  | None => (st, TypeError)
  end.

(** [simulationResult]: the engine on the active scenario. *)
Definition simulationResult (startYear : Z) (st : AppState)
    : option (SimulationResult num) :=
  match activeScenario st with
  | Some active =>
      Some (runSimulation startYear (sc_settings active) (sc_assets active)
              (sc_incomeStreams active))
  | None => None
  end.

(** The states the handlers are meant to work on: at least one scenario,
    distinct ids, and an active id that names a scenario. *)
Definition wellFormed (st : AppState) : Prop :=
  scenarios st <> [] /\
  NoDup (map sc_id (scenarios st)) /\
  activeScenarioId st ∈ map sc_id (scenarios st).

(** The index [switchScenario] moves to from index [k] of [n], and the
    opposite of a direction; used to state what the handler does. *)
Definition neighbour (direction : Direction) (k n : nat) : nat :=
  match direction with
  | next => if (S k =? n)%nat then 0%nat else S k
  | prev => if (k =? 0)%nat then (n - 1)%nat else (k - 1)%nat
  end.

Definition opposite (direction : Direction) : Direction :=
  match direction with next => prev | prev => next end.

(** *** The keys charted ([incomeKeys]) *)

(** [keys.add(k)] on a [Set], kept in insertion order. *)
Definition addKey (keys : list string) (k : string) : list string :=
  if decide (k ∈ keys) then keys else keys ++ [k].

(** The comparator passed to [sort]. *)
Definition shortageLast (a b : string) : Z :=
  if decide (a = "Income Shortage") then 1
  else if decide (b = "Income Shortage") then -1
  else 0.

(** [Array.prototype.sort], which is stable: insertion from the right. *)
Fixpoint insertBy (cmp : string -> string -> Z) (x : string)
    (xs : list string) : list string :=
  match xs with
  | [] => [x]
  | y :: xs' => if (cmp x y <=? 0)%Z then x :: y :: xs'
                else y :: insertBy cmp x xs'
  end.

Fixpoint sortBy (cmp : string -> string -> Z) (xs : list string)
    : list string :=
  match xs with
  | [] => []
  | x :: xs' => insertBy cmp x (sortBy cmp xs')
  end.

(** [incomeKeys]; [keysOf] is [Object.keys], whose order a finite map does
    not record. *)
Definition incomeKeys (keysOf : gmap string num -> list string)
    (result : SimulationResult num) : list string :=
  sortBy shortageLast
    (fold_left (fun keys d => fold_left addKey (keysOf (breakdown d)) keys)
       (data result) []).
End App.

Arguments Scenario : clear implicits.
Arguments AppState : clear implicits.
Arguments ScenarioUpdates : clear implicits.

(** ** Inputs and accounts, to state the properties of the engine *)

Section Inputs.
Context {num : Type}.

(** Two assets that differ at most in their balance. *)
Definition sameAccount (a b : Asset num) : Prop :=
  asset_id a = asset_id b /\ asset_name a = asset_name b /\
  contribution a = contribution b /\ returnRate a = returnRate b /\
  asset_type a = asset_type b.

(** The settings with another planning horizon:
    [{ ...settings, planningHorizon: h }]. *)
Definition withHorizon (settings : FinancialSettings num) (h : Z)
    : FinancialSettings num :=
  {| currentAge := currentAge settings;
     retirementAge := retirementAge settings;
     planningHorizon := h;
     monthlySpending := monthlySpending settings;
     inflationRate := inflationRate settings;
     preRetirementReturn := preRetirementReturn settings |}.

End Inputs.


(** * Facts about the engine *)

(** ** The loop *)

Section LoopFacts.
Context {num : Type} `{!Number num}.
Variable settings : FinancialSettings num.
Variable incomeStreams : list (IncomeStream num).
Variable startYear : Z.

Abbreviation body := (loopBody settings incomeStreams startYear).
Abbreviation run_loop := (loop settings incomeStreams startYear).
Abbreviation state_at := (stateAt settings incomeStreams startYear).
Abbreviation year_at := (yearAt settings incomeStreams startYear).

Lemma loop_snoc n i st :
  run_loop (S n) i st = body (i + n)%nat (run_loop n i st).
Proof.
  revert i st. induction n as [|n IH]; intros i st.
  - simpl. by rewrite Nat.add_0_r.
  - change (run_loop (S (S n)) i st) with (run_loop (S n) (S i) (body i st)).
    rewrite IH. simpl. do 2 f_equal. lia.
Qed.

Lemma stateAt_S assets k :
  state_at assets (S k) = body k (state_at assets k).
Proof. unfold stateAt. by rewrite loop_snoc. Qed.

Lemma stateAt_data assets n :
  l_data (state_at assets n) = map (fun k => yearData (year_at assets k)) (seq 0 n).
Proof.
  induction n as [|n IH]; [done|].
  rewrite stateAt_S, seq_S, map_app. simpl. by rewrite IH.
Qed.

Lemma simulateYear_age i assets depl :
  y_currentAge (simulateYear settings incomeStreams startYear i assets depl)
  = (currentAge settings + Z.of_nat i)%Z.
Proof. unfold simulateYear. by destruct (processIncomeStreams _ _ _). Qed.

Lemma simulateYear_year i assets depl :
  y_currentYear (simulateYear settings incomeStreams startYear i assets depl)
  = (startYear + Z.of_nat i)%Z.
Proof. unfold simulateYear. by destruct (processIncomeStreams _ _ _). Qed.
End LoopFacts.

Section RunFacts.
Context {num : Type} `{!Number num}.

Lemma runSimulation_data startYear settings assets incomeStreams :
  data (runSimulation startYear settings assets incomeStreams) =
  map (fun k => yearData (yearAt settings incomeStreams startYear assets k))
      (seq 0 (Z.to_nat (yearsToRun settings))).
Proof. unfold runSimulation. simpl. apply stateAt_data. Qed.

Lemma runSimulation_data_lookup startYear settings assets incomeStreams k yd :
  data (runSimulation startYear settings assets incomeStreams) !! k = Some yd ->
  yd = yearData (yearAt settings incomeStreams startYear assets k).
Proof.
  rewrite runSimulation_data, list_lookup_fmap.
  intros H. destruct (seq _ _ !! k) as [j|] eqn:E; [|done].
  apply lookup_seq in E as [-> _]. simpl in H. congruence.
Qed.
End RunFacts.

(** ** One iteration, spelled out *)

Section YearFacts.
Context {num : Type} `{!Number num}.
Local Open Scope num_scope.
Variable settings : FinancialSettings num.
Variable incomeStreams : list (IncomeStream num).
Variable startYear : Z.

(** [simulateYear] with the pair of step 2 projected instead of matched. *)
Lemma simulateYear_eq i assets depl :
  simulateYear settings incomeStreams startYear i assets depl =
  let currentAge := (currentAge settings + Z.of_nat i)%Z in
  let isRetired := (retirementAge settings <=? currentAge)%Z in
  let inflationMultiplier := num_pow (1 + inflationRate settings / 100) i in
  let requiredAnnualExpense := monthlySpending settings * 12 * inflationMultiplier in
  let income := processIncomeStreams currentAge i incomeStreams in
  let grown := map (growAsset isRetired inflationMultiplier) assets in
  let withdrawalNeeded := withdrawalNeed isRetired requiredAnnualExpense income.1 in
  let w := executeWithdrawal withdrawalNeeded currentAge grown depl in
  {| y_currentAge := currentAge;
     y_currentYear := (startYear + Z.of_nat i)%Z;
     y_isRetired := isRetired;
     y_inflationMultiplier := inflationMultiplier;
     y_requiredAnnualExpense := requiredAnnualExpense;
     y_totalFixedIncome := income.1;
     y_grown := grown;
     y_withdrawalNeeded := withdrawalNeeded;
     y_totalAvailable := sumBalances grown;
     y_actualWithdrawal := w_actualWithdrawal w;
     y_shortage := w_shortage w;
     y_breakdown := finishBreakdown income.2 (w_actualWithdrawal w) (w_shortage w);
     y_currentAssets := w_assets w;
     y_depletionAge := w_depletionAge w;
     y_portfolioBalance := sumBalances (w_assets w) |}.
Proof. unfold simulateYear. by destruct (processIncomeStreams _ _ _). Qed.

(** The withdrawal of a year is [executeWithdrawal] on the grown assets. *)
Lemma simulateYear_withdrawal i assets depl :
  let y := simulateYear settings incomeStreams startYear i assets depl in
  let w := executeWithdrawal (y_withdrawalNeeded y) (y_currentAge y)
             (y_grown y) depl in
  y_totalAvailable y = sumBalances (y_grown y) /\
  y_actualWithdrawal y = w_actualWithdrawal w /\
  y_shortage y = w_shortage w /\
  y_currentAssets y = w_assets w /\
  y_depletionAge y = w_depletionAge w.
Proof. rewrite simulateYear_eq. simpl. done. Qed.
End YearFacts.

Section WithdrawalFacts.
Context {num : Type} `{!Number num}.
Local Open Scope num_scope.

(** The draining branch. *)
Lemma executeWithdrawal_drained need age assets depl :
  (need >? 0) = true ->
  (sumBalances assets >? 0) = true ->
  (sumBalances assets <? need) = true ->
  executeWithdrawal need age assets depl =
  {| w_assets := map (fun asset => set_balance asset 0) assets;
     w_actualWithdrawal := sumBalances assets;
     w_shortage := need - sumBalances assets;
     w_depletionAge := markDepleted depl age |}.
Proof.
  intros Hneed Htotal Hlt. unfold executeWithdrawal.
  rewrite Hneed, Htotal. simpl.
  by rewrite (num_ltb_not_geb _ _ Hlt).
Qed.


(** The depletion age: recorded when none is, kept when it is not 0, and
    replaced when it is 0. *)
Lemma markDepleted_None age : markDepleted None age = Some age.
Proof. reflexivity. Qed.

Lemma markDepleted_zero age : markDepleted (Some 0%Z) age = Some age.
Proof. reflexivity. Qed.

Lemma markDepleted_nonzero a age :
  a <> 0%Z -> markDepleted (Some a) age = Some a.
Proof.
  intros Ha. unfold markDepleted. simpl.
  by destruct (Z.eqb_spec a 0).
Qed.

Lemma executeWithdrawal_keeps_nonzero need age assets a :
  a <> 0%Z ->
  w_depletionAge (executeWithdrawal need age assets (Some a)) = Some a.
Proof.
  intros Ha. unfold executeWithdrawal.
  repeat (match goal with |- context [if ?b then _ else _] => destruct b end);
    simpl; by rewrite ?markDepleted_nonzero.
Qed.
End WithdrawalFacts.

(** ** Income streams and the breakdown map *)

Lemma filter_none {A} (P : A -> Prop) `{forall x, Decision (P x)} (l : list A) :
  (forall x, x ∈ l -> ~ P x) -> filter P l = [].
Proof.
  induction l as [|a l IH]; intros Hl; [done|].
  rewrite filter_cons_False by (apply Hl; left).
  apply IH. intros x Hx. apply Hl. by right.
Qed.

Section IncomeFacts.
Context {num : Type} `{!Number num}.
Local Open Scope num_scope.
Variable currentAge : Z.
Variable i : nat.

Lemma streamActive_iff (stream : IncomeStream num) :
  streamActive currentAge stream = true
  <-> (startAge stream <= currentAge <= endAge stream)%Z.
Proof. unfold streamActive. rewrite andb_true_iff, !Z.leb_le. done. Qed.

(** The total is the sum, in list order, over the active streams. *)
Lemma income_total streams acc :
  (fold_left (incomeStep currentAge i) streams acc).1 =
  fold_left (fun total stream => total + annualAmount i stream)
    (filter (fun stream => streamActive currentAge stream = true) streams)
    acc.1.
Proof.
  revert acc. induction streams as [|s streams IH]; intros acc; [done|].
  simpl. rewrite IH. unfold incomeStep.
  destruct (streamActive currentAge s) eqn:E.
  - by rewrite filter_cons_True.
  - rewrite filter_cons_False; [done|]. by rewrite E.
Qed.

(** An assignment sets the property of its key, unless the key is
    "__proto__", and leaves every other property as it is. *)
Lemma setProperty_lookup_eq (key : string) (v : num) (obj : gmap string num) :
  key <> "__proto__" -> setProperty key v obj !! key = Some v.
Proof.
  intros Hkey. unfold setProperty. rewrite decide_False by done.
  apply lookup_insert_eq.
Qed.

Lemma setProperty_lookup_ne (key n : string) (v : num) (obj : gmap string num) :
  key <> n -> setProperty key v obj !! n = obj !! n.
Proof.
  intros Hkey. unfold setProperty. destruct (decide (key = "__proto__")); [done|].
  by rewrite lookup_insert_ne.
Qed.

Lemma setProperty_proto (v : num) (obj : gmap string num) :
  setProperty "__proto__" v obj = obj.
Proof. reflexivity. Qed.

(** Under a name other than "__proto__", the map holds the entry of the
    last active stream with that name, if there is one. *)
Lemma income_breakdown streams acc (n : string) :
  n <> "__proto__" ->
  (fold_left (incomeStep currentAge i) streams acc).2 !! n =
  match last (filter (fun stream => streamActive currentAge stream = true
                                    /\ stream_name stream = n) streams) with
  | Some stream => Some (num_round (annualAmount i stream))
  | None => acc.2 !! n
  end.
Proof.
  intros Hn0.
  induction streams as [|s streams IH] using rev_ind; [done|].
  rewrite fold_left_app, filter_app. simpl. unfold incomeStep at 1.
  destruct (streamActive currentAge s) eqn:E.
  - simpl. destruct (decide (stream_name s = n)) as [Hn|Hn].
    + rewrite filter_cons_True, filter_nil, last_snoc by done.
      rewrite Hn. by apply setProperty_lookup_eq.
    + rewrite filter_cons_False by (intros [_ ?]; done).
      rewrite filter_nil, app_nil_r, setProperty_lookup_ne by done. apply IH.
  - rewrite filter_cons_False by (intros [? _]; congruence).
    rewrite filter_nil, app_nil_r. apply IH.
Qed.

(** No stream gets an entry under "__proto__". *)
Lemma income_breakdown_proto streams acc :
  (fold_left (incomeStep currentAge i) streams acc).2 !! "__proto__"
  = acc.2 !! "__proto__".
Proof.
  revert acc. induction streams as [|s streams IH]; intros acc; [done|].
  simpl. rewrite IH. unfold incomeStep.
  destruct (streamActive currentAge s); [|done]. simpl.
  destruct (decide (stream_name s = "__proto__")) as [->|Hn]; [done|].
  by apply setProperty_lookup_ne.
Qed.

Lemma income_breakdown_last streams k stream :
  streams !! k = Some stream ->
  streamActive currentAge stream = true ->
  (forall k' stream', (k < k')%nat -> streams !! k' = Some stream' ->
     streamActive currentAge stream' = true ->
     stream_name stream' <> stream_name stream) ->
  stream_name stream <> "__proto__" ->
  (processIncomeStreams currentAge i streams).2 !! stream_name stream
  = Some (num_round (annualAmount i stream)).
Proof.
  intros Hk Hact Hlater Hproto. unfold processIncomeStreams.
  rewrite income_breakdown by done.
  rewrite <- (take_drop_middle _ _ _ Hk), filter_app.
  rewrite filter_cons_True by done.
  replace (filter _ (drop (S k) streams)) with (@nil (IncomeStream num)).
  { by rewrite last_snoc. }
  symmetry. apply filter_none.
  intros s' [j Hj]%list_elem_of_lookup [Hact' Hname].
  rewrite lookup_drop in Hj.
  apply (Hlater (S k + j)%nat s'); [lia|done..].
Qed.

Lemma income_breakdown_None streams (n : string) :
  (forall stream, stream ∈ streams ->
     streamActive currentAge stream = true -> stream_name stream <> n) ->
  (processIncomeStreams currentAge i streams).2 !! n = None.
Proof.
  intros Hnone. unfold processIncomeStreams.
  destruct (decide (n = "__proto__")) as [->|Hn].
  { by rewrite income_breakdown_proto. }
  rewrite income_breakdown by done.
  replace (filter _ streams) with (@nil (IncomeStream num)); [done|].
  symmetry. apply filter_none.
  intros s Hs [Hact Hname]. by apply (Hnone s).
Qed.

Lemma income_breakdown_is_Some streams (n : string) :
  is_Some ((processIncomeStreams currentAge i streams).2 !! n) <->
  n <> "__proto__" /\
  exists stream, stream ∈ streams /\
    streamActive currentAge stream = true /\ stream_name stream = n.
Proof.
  destruct (decide (n = "__proto__")) as [->|Hn].
  { unfold processIncomeStreams. rewrite income_breakdown_proto. simpl.
    rewrite lookup_empty. split; [by intros [? ?]|by intros [? _]]. }
  split.
  - unfold processIncomeStreams. rewrite income_breakdown by done.
    destruct (last _) as [s|] eqn:E.
    + intros _. apply last_Some_elem_of, list_elem_of_filter in E.
      split; [done|]. exists s. tauto.
    + simpl. rewrite lookup_empty. by intros [? ?].
  - intros (_ & s & [k Hk]%list_elem_of_lookup & Hact & Hname).
    unfold processIncomeStreams. rewrite income_breakdown by done.
    destruct (last _) as [s'|] eqn:E; [done|].
    apply last_None in E.
    assert (Hin : s ∈ filter (fun stream => streamActive currentAge stream = true
                                /\ stream_name stream = n) streams).
    { apply list_elem_of_filter. split; [done|].
      by eapply list_elem_of_lookup_2. }
    rewrite E in Hin. by apply not_elem_of_nil in Hin.
Qed.
End IncomeFacts.

Section BreakdownFacts.
Context {num : Type} `{!Number num}.
Local Open Scope num_scope.

Lemma finishBreakdown_withdrawals (breakdown : gmap string num) actual shortage :
  finishBreakdown breakdown actual shortage !! "Portfolio Withdrawals"
  = Some (num_round actual).
Proof.
  unfold finishBreakdown. destruct (shortage >? 0).
  - rewrite lookup_insert_ne by done. apply lookup_insert_eq.
  - apply lookup_insert_eq.
Qed.

Lemma finishBreakdown_shortage (breakdown : gmap string num) actual shortage :
  finishBreakdown breakdown actual shortage !! "Income Shortage"
  = if shortage >? 0 then Some (num_round shortage)
    else breakdown !! "Income Shortage".
Proof.
  unfold finishBreakdown. destruct (shortage >? 0).
  - apply lookup_insert_eq.
  - by rewrite lookup_insert_ne.
Qed.

Lemma finishBreakdown_other (breakdown : gmap string num) actual shortage
    (n : string) :
  n <> "Portfolio Withdrawals" -> n <> "Income Shortage" ->
  finishBreakdown breakdown actual shortage !! n = breakdown !! n.
Proof.
  intros H1 H2. unfold finishBreakdown. destruct (shortage >? 0).
  - by rewrite !lookup_insert_ne.
  - by rewrite lookup_insert_ne.
Qed.
End BreakdownFacts.

(** ** The proportional drawdown in exact arithmetic *)

Section DrawdownQ.
Local Open Scope Q_scope.

Lemma sumBalances_Q_from (assets : list (Asset Q)) (acc : Q) :
  fold_left (fun sum a => sum + balance a) assets acc
  == acc + fold_right Qplus 0 (map balance assets).
Proof.
  revert acc. induction assets as [|a assets IH]; intros acc; simpl.
  - ring.
  - rewrite IH. ring.
Qed.

Lemma sumBalances_Q (assets : list (Asset Q)) :
  sumBalances assets == fold_right Qplus 0 (map balance assets).
Proof.
  unfold sumBalances. simpl. rewrite sumBalances_Q_from. ring.
Qed.


End DrawdownQ.

(** ** The engine on the store computes [runSimulation] and leaves the
    caller's objects alone *)

Section StoreFacts.
Context {num : Type} `{!Number num}.
Local Open Scope num_scope.

Lemma pointsTo_agree (s s' : Store num) ls vs :
  pointsTo s ls vs ->
  (forall l, l ∈ ls -> assetObjs s' !! l = assetObjs s !! l) ->
  pointsTo s' ls vs.
Proof.
  unfold pointsTo. induction 1 as [|l v ls vs Hl _ IH]; intros Hagree.
  - constructor.
  - constructor.
    + rewrite Hagree; [done | left].
    + apply IH. intros l' Hl'. apply Hagree. by right.
Qed.

Lemma sameOutside_refl ls (s : Store num) : sameOutside ls s s.
Proof. by split. Qed.

Lemma sameOutside_trans ls (s1 s2 s3 : Store num) :
  sameOutside ls s1 s2 -> sameOutside ls s2 s3 -> sameOutside ls s1 s3.
Proof.
  intros [Hs12 Ha12] [Hs23 Ha23]. split; [congruence|].
  intros l Hl. rewrite Ha23, Ha12; done.
Qed.

Lemma streamsAt_sameOutside ls (s s' : Store num) ss svs :
  sameOutside ls s s' -> streamsAt s ss svs -> streamsAt s' ss svs.
Proof. intros [Hs _]. unfold streamsAt. by rewrite Hs. Qed.

Lemma putAsset_putAsset l a a' (s : Store num) :
  putAsset l a (putAsset l a' s) = putAsset l a s.
Proof. unfold putAsset. simpl. by rewrite insert_insert_eq. Qed.

Lemma bind_eq {A B} (m : M A) (k : A -> M B) (s s' : Store num) x :
  m s = Some (x, s') -> bind m k s = k x s'.
Proof. intros Hm. unfold bind. by rewrite Hm. Qed.

Lemma readAsset_ok (s : Store num) l v :
  assetObjs s !! l = Some v -> readAsset l s = Some (v, s).
Proof. intros Hl. unfold readAsset. by rewrite Hl. Qed.

Lemma readStream_ok (s : Store num) l v :
  streamObjs s !! l = Some v -> readStream l s = Some (v, s).
Proof. intros Hl. unfold readStream. by rewrite Hl. Qed.

(** Reading does not change the store. *)
Lemma sumBalancesM_from (s : Store num) ls vs acc :
  pointsTo s ls vs ->
  reduceM (fun sum l => bind (readAsset l) (fun a => ret (sum + balance a)))
    ls acc s
  = Some (fold_left (fun sum a => sum + balance a) vs acc, s).
Proof.
  intros Hp. revert acc. induction Hp as [|l v ls vs Hl _ IH]; intros acc.
  - done.
  - simpl. erewrite bind_eq; [apply IH|].
    erewrite bind_eq; [reflexivity|]. by apply readAsset_ok.
Qed.

Lemma sumBalancesM_ok (s : Store num) ls vs :
  pointsTo s ls vs -> sumBalancesM ls s = Some (sumBalances vs, s).
Proof. apply sumBalancesM_from. Qed.

Lemma processIncomeStreamsM_ok (s : Store num) currentAge i ss svs :
  streamsAt s ss svs ->
  processIncomeStreamsM currentAge i ss s
  = Some (processIncomeStreams currentAge i svs, s).
Proof.
  unfold processIncomeStreamsM, processIncomeStreams.
  generalize ((0, ∅) : num * gmap string num).
  intros acc Hp. revert acc.
  induction Hp as [|l v ss svs Hl _ IH]; intros acc.
  - done.
  - simpl. erewrite bind_eq; [apply IH|].
    erewrite bind_eq; [reflexivity|]. by apply readStream_ok.
Qed.

Lemma forEach_update f g ls vs (s : Store num) :
  updatesWith f g -> NoDup ls -> pointsTo s ls vs ->
  exists s', forEach f ls s = Some (tt, s') /\
    pointsTo s' ls (map g vs) /\ sameOutside ls s s'.
Proof.
  intros Hf Hnd Hp. revert s Hp. revert vs.
  induction Hnd as [|l ls Hl Hnd IH]; intros vs s Hp.
  - inversion Hp; subst. exists s. repeat split; [constructor|done..].
  - inversion Hp as [|? v ? vs' Hv Hp']; subst.
    destruct (IH vs' (putAsset l (g v) s)) as (s' & Hrun & Hp1 & Hs1 & Ha1).
    { apply (pointsTo_agree s); [done|].
      intros l' Hl'. simpl. apply lookup_insert_ne. by intros ->. }
    exists s'. split; [|split; [|split]].
    + simpl. erewrite bind_eq; [exact Hrun|]. by apply Hf.
    + constructor; [|done].
      rewrite Ha1 by done. simpl. apply lookup_insert_eq.
    + done.
    + intros l' Hl'. apply not_elem_of_cons in Hl' as [Hne Hl'].
      rewrite Ha1 by done. simpl. by apply lookup_insert_ne.
Qed.

Lemma setBalance_ok (s : Store num) l v b :
  assetObjs s !! l = Some v ->
  setBalance l b s = Some (tt, putAsset l (set_balance v b) s).
Proof.
  intros Hl. unfold setBalance.
  erewrite bind_eq; [reflexivity|]. by apply readAsset_ok.
Qed.

Lemma growAssetM_updates isRetired inflationMultiplier :
  updatesWith (growAssetM isRetired inflationMultiplier)
    (growAsset isRetired inflationMultiplier).
Proof.
  intros s l v Hl. unfold growAssetM, growAsset.
  erewrite bind_eq; [|by apply readAsset_ok].
  erewrite bind_eq; [|by apply setBalance_ok].
  destruct isRetired; simpl; [done|].
  erewrite bind_eq; [|apply readAsset_ok; simpl; apply lookup_insert_eq].
  erewrite setBalance_ok; [|simpl; apply lookup_insert_eq].
  by rewrite putAsset_putAsset.
Qed.

Lemma withdrawShareM_updates need total :
  updatesWith (withdrawShareM need total)
    (fun asset =>
       set_balance asset (balance asset - need * (balance asset / total))).
Proof.
  intros s l v Hl. unfold withdrawShareM.
  erewrite bind_eq; [|by apply readAsset_ok]. by apply setBalance_ok.
Qed.

Lemma setBalance_zero_updates :
  updatesWith (fun l => setBalance l 0) (fun asset => set_balance asset 0).
Proof. intros s l v Hl. by apply setBalance_ok. Qed.

Lemma executeWithdrawalM_ok need currentAge depl ls vs (s : Store num) :
  NoDup ls -> pointsTo s ls vs ->
  let w := executeWithdrawal need currentAge vs depl in
  exists s',
    executeWithdrawalM need currentAge ls depl s
    = Some ((w_actualWithdrawal w, w_shortage w, w_depletionAge w), s') /\
    pointsTo s' ls (w_assets w) /\ sameOutside ls s s'.
Proof.
  intros Hnd Hp w. subst w. unfold executeWithdrawalM, executeWithdrawal.
  erewrite bind_eq; [|by apply sumBalancesM_ok].
  destruct ((need >? 0) && (sumBalances vs >? 0)).
  - destruct (sumBalances vs >=? need).
    + destruct (forEach_update _ _ ls vs s
                  (withdrawShareM_updates need (sumBalances vs)) Hnd Hp)
        as (s' & Hrun & Hp' & Hs').
      exists s'. split; [|done].
      erewrite bind_eq; [reflexivity|exact Hrun].
    + destruct (forEach_update _ _ ls vs s setBalance_zero_updates Hnd Hp)
        as (s' & Hrun & Hp' & Hs').
      exists s'. split; [|done].
      erewrite bind_eq; [reflexivity|exact Hrun].
  - destruct ((need >? 0) && (sumBalances vs <=? 0));
      exists s; (split; [reflexivity|]); split;
      [done|apply sameOutside_refl|done|apply sameOutside_refl].
Qed.

Lemma loopBodyM_ok settings ss svs startYear i ws vs pb depl yds (s : Store num) :
  NoDup ws -> pointsTo s ws vs -> streamsAt s ss svs ->
  let st := loopBody settings svs startYear i
              {| l_currentAssets := vs; l_portfolioBalance := pb;
                 l_depletionAge := depl; l_data := yds |} in
  exists s',
    loopBodyM settings ss startYear i
      {| m_currentAssets := ws; m_portfolioBalance := pb;
         m_depletionAge := depl; m_data := yds |} s
    = Some ({| m_currentAssets := ws;
               m_portfolioBalance := l_portfolioBalance st;
               m_depletionAge := l_depletionAge st;
               m_data := l_data st |}, s') /\
    pointsTo s' ws (l_currentAssets st) /\ sameOutside ws s s'.
Proof.
  intros Hnd Hp Hss st. subst st.
  unfold loopBodyM, loopBody. simpl. rewrite simulateYear_eq. simpl.
  erewrite bind_eq; [|by apply processIncomeStreamsM_ok].
  destruct (processIncomeStreams _ i svs) as [totalFixedIncome breakdown] eqn:Ei.
  simpl.
  destruct (forEach_update _ _ ws vs s
              (growAssetM_updates
                 (retirementAge settings <=? currentAge settings + Z.of_nat i)%Z
                 (num_pow (1 + inflationRate settings / 100) i)) Hnd Hp)
    as (s1 & Hrun1 & Hp1 & Hs1).
  erewrite bind_eq; [|exact Hrun1].
  match goal with
  | |- context [executeWithdrawalM ?need ?a ws depl] =>
      destruct (executeWithdrawalM_ok need a depl ws _ s1 Hnd Hp1)
        as (s2 & Hrun2 & Hp2 & Hs2)
  end.
  erewrite bind_eq; [|exact Hrun2]. simpl.
  erewrite bind_eq; [|by apply sumBalancesM_ok].
  exists s2. split; [reflexivity|]. split; [done|].
  by apply (sameOutside_trans ws s s1 s2).
Qed.

Lemma loopM_ok settings ss svs startYear n :
  forall i ws vs pb depl yds (s : Store num),
  NoDup ws -> pointsTo s ws vs -> streamsAt s ss svs ->
  let st := loop settings svs startYear n i
              {| l_currentAssets := vs; l_portfolioBalance := pb;
                 l_depletionAge := depl; l_data := yds |} in
  exists s',
    loopM settings ss startYear n i
      {| m_currentAssets := ws; m_portfolioBalance := pb;
         m_depletionAge := depl; m_data := yds |} s
    = Some ({| m_currentAssets := ws;
               m_portfolioBalance := l_portfolioBalance st;
               m_depletionAge := l_depletionAge st;
               m_data := l_data st |}, s') /\
    sameOutside ws s s'.
Proof.
  induction n as [|n IH]; intros i ws vs pb depl yds s Hnd Hp Hss st.
  - exists s. split; [reflexivity|apply sameOutside_refl].
  - subst st. simpl.
    destruct (loopBodyM_ok settings ss svs startYear i ws vs pb depl yds s
                Hnd Hp Hss) as (s1 & Hrun1 & Hp1 & Hs1).
    erewrite bind_eq; [|exact Hrun1].
    set (st1 := loopBody settings svs startYear i _) in *.
    destruct (IH (S i) ws (l_currentAssets st1) (l_portfolioBalance st1)
                (l_depletionAge st1) (l_data st1) s1 Hnd Hp1
                (streamsAt_sameOutside ws s s1 ss svs Hs1 Hss))
      as (s2 & Hrun2 & Hs2).
    exists s2. split.
    + rewrite Hrun2. by destruct st1.
    + by apply (sameOutside_trans ws s s1 s2).
Qed.

(** The copies are new objects, pairwise distinct, holding the values of
    the originals; nothing that existed is changed. *)
Lemma copyAssets_ok assets avs :
  forall s : Store num,
  pointsTo s assets avs ->
  exists ws s',
    copyAssets assets s = Some (ws, s') /\
    NoDup ws /\
    (forall l, l ∈ ws -> l ∉ dom (assetObjs s)) /\
    pointsTo s' ws avs /\
    streamObjs s' = streamObjs s /\
    (forall l, l ∈ dom (assetObjs s) -> assetObjs s' !! l = assetObjs s !! l) /\
    dom (assetObjs s) ⊆ dom (assetObjs s').
Proof.
  revert avs. induction assets as [|l assets IH]; intros avs s Hp.
  - inversion Hp; subst. exists [], s.
    repeat split; [constructor|by intros ? ?%not_elem_of_nil|constructor|done].
  - inversion Hp as [|? v ? avs' Hv Hp']; subst.
    set (l0 := fresh (dom (assetObjs s))).
    assert (Hfresh : l0 ∉ dom (assetObjs s)) by apply is_fresh.
    set (s1 := putAsset l0 v s).
    assert (Hsame1 : forall l', l' ∈ dom (assetObjs s) ->
              assetObjs s1 !! l' = assetObjs s !! l').
    { intros l' Hl'. simpl. apply lookup_insert_ne. by intros ->. }
    destruct (IH avs' s1) as (ws & s' & Hrun & Hnd & Hnew & Hpw & Hst & Hold & Hdom).
    { apply (pointsTo_agree s); [done|].
      intros l' Hl'. apply Hsame1.
      apply elem_of_dom.
      destruct (proj1 (list_elem_of_lookup _ _) Hl') as [j Hj].
      destruct (Forall2_lookup_l _ _ _ _ _ Hp' Hj) as (v' & _ & Hv').
      by exists v'. }
    assert (Hl0 : l0 ∈ dom (assetObjs s1)).
    { apply elem_of_dom. simpl. rewrite lookup_insert_eq. by eexists. }
    assert (Hsub : dom (assetObjs s) ⊆ dom (assetObjs s1)).
    { intros x Hx. simpl. rewrite dom_insert. apply elem_of_union. by right. }
    exists (l0 :: ws), s'. split; [|split; [|split; [|split; [|split; [|split]]]]].
    + unfold copyAssets in *. simpl.
      erewrite bind_eq; [|erewrite bind_eq; [reflexivity|by apply readAsset_ok]].
      erewrite bind_eq; [reflexivity|exact Hrun].
    + constructor; [|done]. intros Hin. by apply (Hnew l0).
    + intros l' [->|Hl']%elem_of_cons; [done|].
      intros Hin. apply (Hnew l' Hl'). by apply Hsub.
    + constructor; [|done].
      rewrite Hold by done. simpl. apply lookup_insert_eq.
    + by rewrite Hst.
    + intros l' Hl'. rewrite Hold by (by apply Hsub). by apply Hsame1.
    + intros x Hx. by apply Hdom, Hsub.
Qed.
End StoreFacts.

Section RunOnStore.
Context {num : Type} `{!Number num}.

(** [runSimulationM] returns what [runSimulation] computes from the values
    of the caller's objects; it works on new objects [ws] and writes
    nothing else. *)
Lemma runSimulationM_ok (s : Store num) startYear settings assets incomeStreams
    avs svs :
  pointsTo s assets avs -> streamsAt s incomeStreams svs ->
  exists s' ws s0,
    runSimulationM startYear settings assets incomeStreams s
    = Some (runSimulation startYear settings avs svs, s') /\
    copyAssets assets s = Some (ws, s0) /\
    NoDup ws /\
    (forall l, l ∈ ws -> l ∉ dom (assetObjs s)) /\
    sameOutside ws s0 s' /\
    streamObjs s' = streamObjs s /\
    (forall l, l ∈ dom (assetObjs s) -> assetObjs s' !! l = assetObjs s !! l).
Proof.
  intros Hp Hss.
  destruct (copyAssets_ok assets avs s Hp)
    as (ws & s0 & Hcopy & Hnd & Hnew & Hpw & Hst0 & Hold0 & _).
  assert (Hss0 : streamsAt s0 incomeStreams svs).
  { unfold streamsAt. by rewrite Hst0. }
  destruct (loopM_ok settings incomeStreams svs startYear
              (Z.to_nat (yearsToRun settings)) 0%nat ws avs (sumBalances avs)
              None [] s0 Hnd Hpw Hss0) as (s' & Hloop & Hs').
  exists s', ws, s0. split; [|split; [done|split; [done|split; [done|split;
    [done|split]]]]].
  - unfold runSimulationM.
    erewrite bind_eq; [|exact Hcopy].
    erewrite bind_eq; [|by apply sumBalancesM_ok].
    erewrite bind_eq; [|exact Hloop]. reflexivity.
  - destruct Hs' as [Hst' _]. by rewrite Hst', Hst0.
  - intros l Hl. destruct Hs' as [_ Ha']. rewrite Ha', Hold0; [done..|].
    intros Hin. by apply (Hnew l).
Qed.

Lemma pointsTo_dom (s : Store num) ls vs l :
  pointsTo s ls vs -> l ∈ ls -> l ∈ dom (assetObjs s).
Proof.
  intros Hp [j Hj]%list_elem_of_lookup.
  destruct (Forall2_lookup_l _ _ _ _ _ Hp Hj) as (v & _ & Hv).
  apply elem_of_dom. by exists v.
Qed.
End RunOnStore.

(** ** The calendar year *)

Section Clock.
Context {num : Type} `{!Number num}.
Variable settings : FinancialSettings num.
Variable incomeStreams : list (IncomeStream num).

(** Two iterations that differ in the calendar year only. *)
Lemma loopBody_clock y1 y2 i (st1 st2 : LoopState) :
  l_currentAssets st1 = l_currentAssets st2 ->
  l_depletionAge st1 = l_depletionAge st2 ->
  map financial (l_data st1) = map financial (l_data st2) ->
  let st1' := loopBody settings incomeStreams y1 i st1 in
  let st2' := loopBody settings incomeStreams y2 i st2 in
  l_currentAssets st1' = l_currentAssets st2' /\
  l_portfolioBalance st1' = l_portfolioBalance st2' /\
  l_depletionAge st1' = l_depletionAge st2' /\
  map financial (l_data st1') = map financial (l_data st2').
Proof.
  intros Ha Hd Hdata st1' st2'. subst st1' st2'. unfold loopBody.
  rewrite !simulateYear_eq. simpl. rewrite Ha, Hd, !map_app, Hdata. done.
Qed.

Lemma loop_clock y1 y2 n :
  forall i (st1 st2 : LoopState),
  l_currentAssets st1 = l_currentAssets st2 ->
  l_portfolioBalance st1 = l_portfolioBalance st2 ->
  l_depletionAge st1 = l_depletionAge st2 ->
  map financial (l_data st1) = map financial (l_data st2) ->
  let st1' := loop settings incomeStreams y1 n i st1 in
  let st2' := loop settings incomeStreams y2 n i st2 in
  l_portfolioBalance st1' = l_portfolioBalance st2' /\
  l_depletionAge st1' = l_depletionAge st2' /\
  map financial (l_data st1') = map financial (l_data st2').
Proof.
  induction n as [|n IH]; intros i st1 st2 Ha Hb Hd Hdata; [done|].
  simpl.
  destruct (loopBody_clock y1 y2 i st1 st2 Ha Hd Hdata) as (Ha' & Hb' & Hd' & Hdata').
  by apply IH.
Qed.
End Clock.

(** ** Properties of the engine *)

(** C1.  In a retired year with a positive withdrawal need and
    [0 < totalAvailable < withdrawalNeeded], the engine withdraws exactly
    [totalAvailable], leaves every asset at balance zero, records the
    shortage [withdrawalNeeded - totalAvailable] and, when no depletion age
    was recorded yet, records the current age.  On Scenario B (one asset of
    1000, no income, a need of 2400 a year, ages 65 and 66) the first year
    withdraws 1000 with a shortfall of 1400 and depletion age 65, the second
    withdraws 0 with a shortfall of 2400 and balance 0, and the run is not a
    success. *)
Theorem C1_drained_year :
  (forall (num : Type) (N : Number num) (settings : FinancialSettings num)
      (incomeStreams : list (IncomeStream num)) (startYear : Z) (i : nat)
      (assets : list (Asset num)) (depl : option Z),
    let y := simulateYear settings incomeStreams startYear i assets depl in
    y_isRetired y = true ->
    (y_withdrawalNeeded y >? 0)%num = true ->
    (y_totalAvailable y >? 0)%num = true ->
    (y_totalAvailable y <? y_withdrawalNeeded y)%num = true ->
    y_actualWithdrawal y = y_totalAvailable y /\
    length (y_currentAssets y) = length assets /\
    Forall (fun asset => balance asset = 0%num) (y_currentAssets y) /\
    y_shortage y = (y_withdrawalNeeded y - y_totalAvailable y)%num /\
    (depl = None -> y_depletionAge y = Some (y_currentAge y)))
  /\
  (forall startYear : Z,
    let r := runSimulation startYear Scenario.settingsB Scenario.assetsB [] in
    exists y1 y2 : YearData Q,
      data r = [y1; y2] /\
      age y1 = 65 /\ withdrawals y1 = 1000%Q /\ shortfall y1 = 1400%Q /\
      y_depletionAge
        (yearAt Scenario.settingsB [] startYear Scenario.assetsB 0) = Some 65 /\
      age y2 = 66 /\ withdrawals y2 = 0%Q /\ shortfall y2 = 2400%Q /\
      portfolioBalance y2 = 0%Q /\
      success r = false /\ depletionAge r = Some 65).
Proof.
  split.
  - intros num N settings incomeStreams startYear i assets depl y
      _ Hneed Htotal Hlt.
    destruct (simulateYear_withdrawal settings incomeStreams startYear i
                assets depl) as (Ht & Ha & Hs & Hc & Hd).
    fold y in Ht, Ha, Hs, Hc, Hd.
    rewrite Ht in Htotal, Hlt.
    rewrite (executeWithdrawal_drained _ _ _ _ Hneed Htotal Hlt) in Ha, Hs, Hc, Hd.
    simpl in Ha, Hs, Hc, Hd.
    rewrite Ha, Hs, Hc, Hd, Ht. repeat split.
    + rewrite length_map. subst y. rewrite simulateYear_eq. simpl.
      by rewrite length_map.
    + apply Forall_forall. intros a [a0 [-> _]]%list_elem_of_fmap. done.
    + by intros ->.
  - intros startYear r. subst r.
    eexists _, _. split; [vm_compute; reflexivity|].
    vm_compute. repeat split; reflexivity.
Qed.

Lemma C1_drained_year_witness :
  let y := simulateYear Scenario.settingsB [] 2026 0 Scenario.assetsB None in
  y_actualWithdrawal y = y_totalAvailable y /\
  length (y_currentAssets y) = length Scenario.assetsB /\
  Forall (fun asset => balance asset = 0%num) (y_currentAssets y) /\
  y_shortage y = (y_withdrawalNeeded y - y_totalAvailable y)%num /\
  (@None Z = None -> y_depletionAge y = Some (y_currentAge y)).
Proof.
  apply (proj1 C1_drained_year Q Q_Number Scenario.settingsB [] 2026 0%nat
           Scenario.assetsB None); vm_compute; reflexivity.
Defined.




(** C3.  The depletion age is not sticky when it is 0: [!depletionAge]
    also holds of the age 0, so a later year with a shortfall overwrites
    it.  Here both years have a shortfall, the first at age 0, and the
    result reports depletion age 1. *)
Theorem C3_depletionAge_overwritten_after_age_zero :
  let settings : FinancialSettings Q :=
    {| currentAge := 0; retirementAge := 0; planningHorizon := 1;
       monthlySpending := 200%Q; inflationRate := 0%Q;
       preRetirementReturn := 0%Q |} in
  let r := runSimulation 2026 settings [] [] in
  map age (data r) = [0; 1] /\
  map shortfall (data r) = [2400%Q; 2400%Q] /\
  y_depletionAge (yearAt settings [] 2026 [] 0) = Some 0 /\
  depletionAge r = Some 1 /\
  success r = false.
Proof. vm_compute. repeat split; reflexivity. Qed.




(** C5.  In every simulated year each asset first grows by
    [balance * (returnRate / 100)], computed on the balance it had at the
    start of the year; then, only when the current age is below
    [retirementAge], [contribution * inflationMultiplier] is added; in a
    retired year nothing but the growth is added.  On Scenario C (balance 0,
    contribution 10000, return 5%, inflation 0%, ages 60 to 62, retirement at
    62) the balance is 10000 after the first year and 20500 after the
    second, whatever the spending target and the calendar year. *)
Theorem C5_growth_then_contribution :
  (forall (num : Type) (N : Number num) (settings : FinancialSettings num)
      (incomeStreams : list (IncomeStream num)) (startYear : Z) (i : nat)
      (assets : list (Asset num)) (depl : option Z),
    let y := simulateYear settings incomeStreams startYear i assets depl in
    let inflationMultiplier :=
      num_pow (1 + inflationRate settings / 100)%num i in
    y_currentAge y = (currentAge settings + Z.of_nat i)%Z /\
    y_grown y =
      map (fun asset =>
             let growth := (balance asset * (returnRate asset / 100))%num in
             set_balance asset
               (if (y_currentAge y <? retirementAge settings)%Z
                then (balance asset + growth
                      + contribution asset * inflationMultiplier)%num
                else (balance asset + growth)%num))
          assets)
  /\
  (forall (startYear : Z) (spending : Q),
    let r := runSimulation startYear (Scenario.settingsC spending)
               Scenario.assetsC [] in
    let balanceAfter k :=
      y_portfolioBalance
        (yearAt (Scenario.settingsC spending) [] startYear Scenario.assetsC k) in
    map age (data r) = [60; 61; 62] /\
    portfolioBalance <$> data r !! 0%nat = Some 10000%Q /\
    portfolioBalance <$> data r !! 1%nat = Some 20500%Q /\
    (balanceAfter 0%nat == 10000)%Q /\
    (balanceAfter 1%nat == 20500)%Q).
Proof.
  split.
  - intros num N settings incomeStreams startYear i assets depl y m.
    subst y. rewrite simulateYear_eq. simpl. split; [done|].
    apply map_ext. intros a. unfold growAsset. simpl.
    rewrite Z.leb_antisym, negb_involutive.
    by destruct (_ <? _)%Z.
  - intros startYear spending r balanceAfter. subst r balanceAfter.
    split; [vm_compute; reflexivity|].
    split; [vm_compute; reflexivity|].
    split; [vm_compute; reflexivity|].
    split; vm_compute; reflexivity.
Qed.

(** C6 as stated fails when two active streams carry the same name: the
    entry under that name is the amount of the later one, so the rounded
    amount of the first stream (12000) is not recorded under its name. *)
Lemma C6_counterexample :
  let settings : FinancialSettings Q :=
    {| currentAge := 65; retirementAge := 65; planningHorizon := 65;
       monthlySpending := 2000%Q; inflationRate := 0%Q;
       preRetirementReturn := 0%Q |} in
  let first : IncomeStream Q :=
    {| stream_id := "s1"; stream_name := "Pension"; monthlyAmount := 1000%Q;
       startAge := 65; endAge := 95; growthRate := 0%Q; isTaxable := true |} in
  let second : IncomeStream Q :=
    {| stream_id := "s2"; stream_name := "Pension"; monthlyAmount := 500%Q;
       startAge := 60; endAge := 95; growthRate := 0%Q; isTaxable := true |} in
  let y := simulateYear settings [first; second] 2026 0 Scenario.assetsB None in
  streamActive (y_currentAge y) first = true /\
  num_round (annualAmount 0 first) = 12000%Q /\
  y_breakdown y !! stream_name first = Some 6000%Q /\
  y_breakdown y !! stream_name first <> Some (num_round (annualAmount 0 first)).
Proof. vm_compute. repeat split; [reflexivity..|discriminate]. Qed.

(** C6 (amended).  In every simulated year a stream is active iff
    [startAge <= age <= endAge]; [totalFixedIncome] is the sum over exactly
    the active streams of
    [monthlyAmount * 12 * (1 + growthRate/100) ^ yearsElapsed], with
    [yearsElapsed] the zero-based index of the year; the rounded amount of an
    active stream is the entry under its name in that year's breakdown
    provided no later-listed active stream has the same name and the name is
    neither "Portfolio Withdrawals" nor "Income Shortage" nor "__proto__";
    there is no entry under the name of an inactive stream provided no
    active stream has that name and it is neither of the two labels; and
    there is never an entry under "__proto__", whose assignment creates no
    property. *)
Theorem C6_income_streams :
  forall (num : Type) (N : Number num) (settings : FinancialSettings num)
      (incomeStreams : list (IncomeStream num)) (startYear : Z) (i : nat)
      (assets : list (Asset num)) (depl : option Z),
    let y := simulateYear settings incomeStreams startYear i assets depl in
    let active stream := streamActive (y_currentAge y) stream = true in
    let amount stream :=
      (monthlyAmount stream * 12
       * num_pow (1 + growthRate stream / 100) i)%num in
    (forall stream,
       active stream <-> (startAge stream <= y_currentAge y <= endAge stream)%Z) /\
    y_totalFixedIncome y =
      fold_left (fun total stream => (total + amount stream)%num)
        (filter active incomeStreams) 0%num /\
    (forall k stream,
       incomeStreams !! k = Some stream ->
       active stream ->
       (forall k' stream', (k < k')%nat -> incomeStreams !! k' = Some stream' ->
          active stream' -> stream_name stream' <> stream_name stream) ->
       stream_name stream <> "Portfolio Withdrawals" ->
       stream_name stream <> "Income Shortage" ->
       stream_name stream <> "__proto__" ->
       y_breakdown y !! stream_name stream = Some (num_round (amount stream))) /\
    (forall stream,
       stream ∈ incomeStreams ->
       ~ active stream ->
       (forall stream', stream' ∈ incomeStreams -> active stream' ->
          stream_name stream' <> stream_name stream) ->
       stream_name stream <> "Portfolio Withdrawals" ->
       stream_name stream <> "Income Shortage" ->
       y_breakdown y !! stream_name stream = None) /\
    y_breakdown y !! "__proto__" = None.
Proof.
  intros num N settings incomeStreams startYear i assets depl y active amount.
  subst y active amount. rewrite simulateYear_eq. simpl.
  split; [|split; [|split; [|split]]].
  - intros stream. apply streamActive_iff.
  - unfold processIncomeStreams. by rewrite income_total.
  - intros k stream Hk Hact Hlater Hpw His Hproto.
    rewrite finishBreakdown_other by done.
    by apply income_breakdown_last with (k := k).
  - intros stream _ _ Hnone Hpw His.
    rewrite finishBreakdown_other by done.
    by apply income_breakdown_None.
  - rewrite finishBreakdown_other by done.
    unfold processIncomeStreams. by rewrite income_breakdown_proto.
Qed.

Lemma C6_income_streams_witness :
  let settings : FinancialSettings Q :=
    {| currentAge := 65; retirementAge := 65; planningHorizon := 65;
       monthlySpending := 2000%Q; inflationRate := 0%Q;
       preRetirementReturn := 0%Q |} in
  let pension : IncomeStream Q :=
    {| stream_id := "s1"; stream_name := "Pension"; monthlyAmount := 1000%Q;
       startAge := 65; endAge := 95; growthRate := 2%Q; isTaxable := true |} in
  let annuity : IncomeStream Q :=
    {| stream_id := "s2"; stream_name := "Annuity"; monthlyAmount := 500%Q;
       startAge := 70; endAge := 95; growthRate := 0%Q; isTaxable := true |} in
  let y := simulateYear settings [pension; annuity] 2026 0
             Scenario.assetsB None in
  y_breakdown y !! "Pension"
    = Some (num_round (1000 * 12 * num_pow (1 + 2 / 100) 0)%Q) /\
  y_breakdown y !! "Annuity" = None.
Proof.
  intros settings pension annuity y.
  destruct (C6_income_streams Q Q_Number settings [pension; annuity] 2026
              0%nat Scenario.assetsB None) as (_ & _ & Hact & Hinact & _).
  split.
  - apply (Hact 0%nat pension); [reflexivity|reflexivity| |discriminate..].
    intros [|[|k']] s' Hlt Hk' Hs'; [lia| |discriminate].
    injection Hk' as <-. discriminate.
  - apply (Hinact annuity); [|discriminate| |discriminate..].
    + apply list_elem_of_In. right. left. reflexivity.
    + intros s' Hin Hs'. apply list_elem_of_In in Hin.
      destruct Hin as [<-|[<-|[]]]; [discriminate|].
      vm_compute in Hs'. discriminate.
Defined.

(** C7 as stated fails when an income stream is itself named
    "Income Shortage": in a year without any shortage the breakdown still
    has an entry under that key. *)
Lemma C7_counterexample :
  let settings : FinancialSettings Q :=
    {| currentAge := 60; retirementAge := 65; planningHorizon := 60;
       monthlySpending := 2000%Q; inflationRate := 0%Q;
       preRetirementReturn := 0%Q |} in
  let stream : IncomeStream Q :=
    {| stream_id := "s1"; stream_name := "Income Shortage";
       monthlyAmount := 100%Q; startAge := 50; endAge := 95;
       growthRate := 0%Q; isTaxable := false |} in
  let r := runSimulation 2026 settings Scenario.assetsB [stream] in
  exists yd : YearData Q,
    data r = [yd] /\
    (y_shortage (yearAt settings [stream] 2026 Scenario.assetsB 0) >? 0)%num
      = false /\
    shortfall yd = 0%Q /\
    breakdown yd !! "Income Shortage" = Some 1200%Q.
Proof.
  eexists. split; [vm_compute; reflexivity|].
  vm_compute. repeat split; reflexivity.
Qed.

(** C7 (amended).  Every [YearData] produced has an entry under
    "Portfolio Withdrawals", holding the year's rounded withdrawal (possibly
    zero); and it has an entry under "Income Shortage" iff that year's
    shortage was positive or an income stream active that year is named
    "Income Shortage". *)
Theorem C7_breakdown_labels :
  forall (num : Type) (N : Number num) (startYear : Z)
      (settings : FinancialSettings num) (assets : list (Asset num))
      (incomeStreams : list (IncomeStream num)) (k : nat) (yd : YearData num),
    data (runSimulation startYear settings assets incomeStreams) !! k = Some yd ->
    let y := yearAt settings incomeStreams startYear assets k in
    breakdown yd !! "Portfolio Withdrawals" = Some (withdrawals yd) /\
    (is_Some (breakdown yd !! "Income Shortage") <->
       (y_shortage y >? 0)%num = true \/
       exists stream, stream ∈ incomeStreams /\
         streamActive (age yd) stream = true /\
         stream_name stream = "Income Shortage").
Proof.
  intros num N startYear settings assets incomeStreams k yd Hyd y.
  apply runSimulation_data_lookup in Hyd. subst yd y.
  unfold yearAt. rewrite simulateYear_eq. simpl. split.
  - apply finishBreakdown_withdrawals.
  - rewrite finishBreakdown_shortage.
    destruct (_ >? 0)%num.
    + split; [by left | by intros _].
    + rewrite income_breakdown_is_Some. split.
      * intros [_ Hstream]. by right.
      * intros [?|?]; [done|]. by split.
Qed.

Lemma C7_breakdown_labels_witness :
  let r := runSimulation 2026 Scenario.settingsB Scenario.assetsB [] in
  exists yd : YearData Q,
    data r !! 1%nat = Some yd /\
    breakdown yd !! "Portfolio Withdrawals" = Some (withdrawals yd) /\
    (is_Some (breakdown yd !! "Income Shortage") <->
       (y_shortage (yearAt Scenario.settingsB [] 2026 Scenario.assetsB 1)
          >? 0)%num = true \/
       exists stream : IncomeStream Q, stream ∈ [] /\
         streamActive (age yd) stream = true /\
         stream_name stream = "Income Shortage").
Proof.
  eexists. split; [vm_compute; reflexivity|].
  apply (C7_breakdown_labels Q Q_Number 2026 Scenario.settingsB
           Scenario.assetsB [] 1%nat).
  vm_compute. reflexivity.
Defined.

(** C8.  After [runSimulation] returns, every asset and income-stream
    object that existed before the call, in particular every one passed
    in, has the value it had before; the working copy consists of objects
    created by the call, none of which the caller could hold, and the engine
    writes to no other object.  The result is the one computed from the
    values of the caller's objects. *)
Theorem C8_inputs_not_mutated :
  forall (num : Type) (N : Number num) (s : Store num) (startYear : Z)
      (settings : FinancialSettings num) (assets incomeStreams : list loc)
      (avs : list (Asset num)) (svs : list (IncomeStream num)),
    pointsTo s assets avs -> streamsAt s incomeStreams svs ->
    exists (s' : Store num) (workingCopy : list loc) (s0 : Store num),
      runSimulationM startYear settings assets incomeStreams s
      = Some (runSimulation startYear settings avs svs, s') /\
      (forall l, l ∈ dom (assetObjs s) -> assetObjs s' !! l = assetObjs s !! l) /\
      streamObjs s' = streamObjs s /\
      pointsTo s' assets avs /\ streamsAt s' incomeStreams svs /\
      copyAssets assets s = Some (workingCopy, s0) /\
      NoDup workingCopy /\
      (forall l, l ∈ workingCopy ->
         (l ∉ dom (assetObjs s)) /\ (l ∉ assets)) /\
      sameOutside workingCopy s0 s'.
Proof.
  intros num N s startYear settings assets incomeStreams avs svs Hp Hss.
  destruct (runSimulationM_ok s startYear settings assets incomeStreams
              avs svs Hp Hss)
    as (s' & ws & s0 & Hrun & Hcopy & Hnd & Hnew & Hs' & Hst & Hold).
  exists s', ws, s0.
  split; [done|]. split; [done|]. split; [done|].
  split. { apply (pointsTo_agree s); [done|].
           intros l Hl. apply Hold. by apply (pointsTo_dom s assets avs). }
  split. { unfold streamsAt. by rewrite Hst. }
  split; [done|]. split; [done|]. split; [|done].
  intros l Hl. split; [by apply Hnew|].
  intros Hin. apply (Hnew l Hl). by apply (pointsTo_dom s assets avs).
Qed.

Lemma C8_inputs_not_mutated_witness :
  let s : Store Q :=
    {| assetObjs := {[ 1%positive := Scenario.asset 1000%Q 0%Q 0%Q ]};
       streamObjs := ∅ |} in
  exists s' : Store Q,
    runSimulationM 2026 Scenario.settingsB [1%positive] [] s
    = Some (runSimulation 2026 Scenario.settingsB Scenario.assetsB [], s') /\
    assetObjs s' !! 1%positive = Some (Scenario.asset 1000%Q 0%Q 0%Q) /\
    streamObjs s' = ∅.
Proof.
  intros s.
  destruct (C8_inputs_not_mutated Q Q_Number s 2026 Scenario.settingsB
              [1%positive] [] Scenario.assetsB [])
    as (s' & ws & s0 & Hrun & Hold & Hst & _).
  - constructor; [reflexivity|constructor].
  - constructor.
  - exists s'. split; [exact Hrun|]. split; [|exact Hst].
    rewrite Hold; [reflexivity|].
    apply elem_of_dom. exists (Scenario.asset 1000%Q 0%Q 0%Q). reflexivity.
Defined.

(** C9 as stated fails for two calls that read different calendar years:
    the year labels differ. *)
Lemma C9_counterexample :
  let r1 := runSimulation 2025 Scenario.settingsB Scenario.assetsB [] in
  let r2 := runSimulation 2026 Scenario.settingsB Scenario.assetsB [] in
  map year (data r1) = [2025; 2026] /\
  map year (data r2) = [2026; 2027] /\
  r1 <> r2.
Proof.
  split; [vm_compute; reflexivity|]. split; [vm_compute; reflexivity|].
  intros Heq. apply (f_equal (fun r => map year (data r))) in Heq.
  vm_compute in Heq. discriminate.
Qed.

(** C9 (amended).  Two successive calls on the same, unmodified inputs that
    read the same calendar year return the same result.  Calls that read
    different calendar years agree on every financial field ([success],
    [depletionAge], [finalBalance] and, year by year, age, expenses, income,
    balance, withdrawals, shortfall and breakdown); the year labels are the
    calendar year read plus the index of the year. *)
Theorem C9_repeatable_up_to_year_labels :
  (forall (num : Type) (N : Number num) (s : Store num) (startYear : Z)
      (settings : FinancialSettings num) (assets incomeStreams : list loc)
      (avs : list (Asset num)) (svs : list (IncomeStream num)),
    pointsTo s assets avs -> streamsAt s incomeStreams svs ->
    exists (r : SimulationResult num) (s1 s2 : Store num),
      runSimulationM startYear settings assets incomeStreams s = Some (r, s1) /\
      runSimulationM startYear settings assets incomeStreams s1 = Some (r, s2))
  /\
  (forall (num : Type) (N : Number num) (y1 y2 : Z)
      (settings : FinancialSettings num) (assets : list (Asset num))
      (incomeStreams : list (IncomeStream num)),
    let r1 := runSimulation y1 settings assets incomeStreams in
    let r2 := runSimulation y2 settings assets incomeStreams in
    success r1 = success r2 /\
    depletionAge r1 = depletionAge r2 /\
    finalBalance r1 = finalBalance r2 /\
    map financial (data r1) = map financial (data r2) /\
    map year (data r1)
      = map (fun k => (y1 + Z.of_nat k)%Z) (seq 0 (length (data r1)))).
Proof.
  split.
  - intros num N s startYear settings assets incomeStreams avs svs Hp Hss.
    destruct (runSimulationM_ok s startYear settings assets incomeStreams
                avs svs Hp Hss)
      as (s1 & ws & s0 & Hrun & _ & _ & _ & _ & Hst & Hold).
    assert (Hp1 : pointsTo s1 assets avs).
    { apply (pointsTo_agree s); [done|].
      intros l Hl. apply Hold. by apply (pointsTo_dom s assets avs). }
    assert (Hss1 : streamsAt s1 incomeStreams svs).
    { unfold streamsAt. by rewrite Hst. }
    destruct (runSimulationM_ok s1 startYear settings assets incomeStreams
                avs svs Hp1 Hss1) as (s2 & _ & _ & Hrun2 & _).
    by exists (runSimulation startYear settings avs svs), s1, s2.
  - intros num N y1 y2 settings assets incomeStreams r1 r2.
    destruct (loop_clock settings incomeStreams y1 y2
                (Z.to_nat (yearsToRun settings)) 0%nat
                (initialState assets) (initialState assets))
      as (Hb & Hd & Hdata); [done..|].
    assert (Hyears : map year (data r1)
              = map (fun k => (y1 + Z.of_nat k)%Z) (seq 0 (length (data r1)))).
    { subst r1. rewrite runSimulation_data, length_map, length_seq, map_map.
      apply map_ext. intros k. unfold yearData, yearAt. simpl.
      apply simulateYear_year. }
    split; [|split; [|split; [|split; [|exact Hyears]]]];
      unfold r1, r2, runSimulation; simpl.
    + by rewrite Hd.
    + exact Hd.
    + exact Hb.
    + exact Hdata.
Qed.

Lemma C9_repeatable_up_to_year_labels_witness :
  let s : Store Q :=
    {| assetObjs := {[ 1%positive := Scenario.asset 1000%Q 0%Q 0%Q ]};
       streamObjs := ∅ |} in
  exists (r : SimulationResult Q) (s1 s2 : Store Q),
    runSimulationM 2026 Scenario.settingsB [1%positive] [] s = Some (r, s1) /\
    runSimulationM 2026 Scenario.settingsB [1%positive] [] s1 = Some (r, s2).
Proof.
  intros s.
  apply (proj1 C9_repeatable_up_to_year_labels Q Q_Number s 2026
           Scenario.settingsB [1%positive] [] Scenario.assetsB []).
  - constructor; [reflexivity|constructor].
  - constructor.
Defined.


(** * Further properties of the engine *)

(** Folds the local definition [y] in the goal and in every hypothesis. *)
Ltac fold_everywhere y :=
  repeat match goal with
         | H : _ |- _ => progress (fold y in H)
         end;
  fold y.

(** ** A year in exact arithmetic: the four ways step 5 can go *)

Section ExactYear.
Local Open Scope Q_scope.

Lemma Qltb_lt (a b : Q) : Qltb a b = true <-> a < b.
Proof. unfold Qltb. apply Z.ltb_lt. Qed.

Lemma Qltb_nlt (a b : Q) : Qltb a b = false <-> ~ a < b.
Proof. rewrite <- Qltb_lt. by destruct (Qltb a b). Qed.

Lemma Qle_bool_false (a b : Q) : Qle_bool a b = false <-> b < a.
Proof.
  rewrite <- not_true_iff_false, Qle_bool_iff. split.
  - apply Qnot_le_lt.
  - apply Qlt_not_le.
Qed.

(** The withdrawal need is the gap when the person is retired and the gap
    is positive, and the literal 0 otherwise. *)
Lemma withdrawalNeed_cases (isRetired : bool) (expense income : Q) :
  (isRetired = true /\ 0 < expense - income /\
   withdrawalNeed isRetired expense income = expense - income) \/
  ((isRetired = false \/ ~ 0 < expense - income) /\
   withdrawalNeed isRetired expense income = 0).
Proof.
  unfold withdrawalNeed. destruct isRetired; [|right; split; [by left|done]].
  simpl. change (num_sub expense income) with (expense - income).
  change (inject_Z 0) with 0.
  destruct (Qltb 0 (expense - income)) eqn:E.
  - left. by apply Qltb_lt in E.
  - right. apply Qltb_nlt in E. split; [by right|done].
Qed.

Lemma executeWithdrawal_cases (need : Q) (age : Z) (assets : list (Asset Q))
    (depl : option Z) :
  let total := sumBalances assets in
  let w := executeWithdrawal need age assets depl in
  (0 < need /\ need <= total /\
   w = {| w_assets :=
            map (fun asset =>
                   set_balance asset
                     (balance asset - need * (balance asset / total))) assets;
          w_actualWithdrawal := need; w_shortage := 0;
          w_depletionAge := depl |}) \/
  (0 < total /\ total < need /\
   w = {| w_assets := map (fun asset => set_balance asset 0) assets;
          w_actualWithdrawal := total; w_shortage := need - total;
          w_depletionAge := markDepleted depl age |}) \/
  (0 < need /\ total <= 0 /\
   w = {| w_assets := assets; w_actualWithdrawal := 0; w_shortage := need;
          w_depletionAge := markDepleted depl age |}) \/
  (~ 0 < need /\
   w = {| w_assets := assets; w_actualWithdrawal := 0; w_shortage := 0;
          w_depletionAge := depl |}).
Proof.
  intros total w. subst w. unfold executeWithdrawal. fold total.
  change (num_ltb (num_of_Z 0) need) with (Qltb 0 need).
  change (num_ltb (num_of_Z 0) total) with (Qltb 0 total).
  change (num_leb need total) with (Qle_bool need total).
  change (num_leb total (num_of_Z 0)) with (Qle_bool total 0).
  destruct (Qltb 0 need) eqn:En; simpl.
  - apply Qltb_lt in En.
    destruct (Qltb 0 total) eqn:Et; simpl.
    + apply Qltb_lt in Et.
      destruct (Qle_bool need total) eqn:Ege.
      * left. by apply Qle_bool_iff in Ege.
      * right; left. by apply Qle_bool_false in Ege.
    + apply Qltb_nlt in Et.
      assert (Hle : total <= 0) by by apply Qnot_lt_le.
      right; right; left.
      by rewrite (proj2 (Qle_bool_iff total 0) Hle).
  - apply Qltb_nlt in En. right; right; right. done.
Qed.
End ExactYear.

Section ExactYearFacts.
Local Open Scope Q_scope.
Variable settings : FinancialSettings Q.
Variable incomeStreams : list (IncomeStream Q).
Variable startYear : Z.

Lemma sumBalances_zeroed (assets : list (Asset Q)) :
  sumBalances (map (fun asset => set_balance asset (0 : Q)) assets) == 0.
Proof.
  rewrite sumBalances_Q.
  induction assets as [|a assets IH]; simpl; [reflexivity|].
  rewrite IH. ring.
Qed.

(** The need of a year, by [withdrawalNeed_cases]. *)
Lemma simulateYear_need i assets depl :
  let y := simulateYear settings incomeStreams startYear i assets depl in
  (y_isRetired y = true /\
   0 < y_requiredAnnualExpense y - y_totalFixedIncome y /\
   y_withdrawalNeeded y = y_requiredAnnualExpense y - y_totalFixedIncome y) \/
  ((y_isRetired y = false \/
    ~ 0 < y_requiredAnnualExpense y - y_totalFixedIncome y) /\
   y_withdrawalNeeded y = 0).
Proof.
  intros y. subst y. rewrite simulateYear_eq. simpl.
  apply withdrawalNeed_cases.
Qed.

(** The withdrawal of a year, by [executeWithdrawal_cases]. *)
Lemma simulateYear_cases i assets depl :
  let y := simulateYear settings incomeStreams startYear i assets depl in
  let need := y_withdrawalNeeded y in
  let total := y_totalAvailable y in
  (0 < need /\ need <= total /\
   y_currentAssets y =
     map (fun asset =>
            set_balance asset
              (balance asset - need * (balance asset / total))) (y_grown y) /\
   y_actualWithdrawal y = need /\ y_shortage y = 0 /\
   y_depletionAge y = depl) \/
  (0 < total /\ total < need /\
   y_currentAssets y = map (fun asset => set_balance asset 0) (y_grown y) /\
   y_actualWithdrawal y = total /\ y_shortage y = need - total /\
   y_depletionAge y = markDepleted depl (y_currentAge y)) \/
  (0 < need /\ total <= 0 /\
   y_currentAssets y = y_grown y /\
   y_actualWithdrawal y = 0 /\ y_shortage y = need /\
   y_depletionAge y = markDepleted depl (y_currentAge y)) \/
  (~ 0 < need /\
   y_currentAssets y = y_grown y /\
   y_actualWithdrawal y = 0 /\ y_shortage y = 0 /\
   y_depletionAge y = depl).
Proof.
  intros y need total.
  destruct (simulateYear_withdrawal settings incomeStreams startYear i
              assets depl) as (Ht & Ha & Hs & Hc & Hd).
  fold y in Ht, Ha, Hs, Hc, Hd. fold need in Ha, Hs, Hc, Hd.
  subst total. rewrite Ht, Ha, Hs, Hc, Hd.
  destruct (executeWithdrawal_cases need (y_currentAge y) (y_grown y) depl)
    as [(H1 & H2 & ->)|[(H1 & H2 & ->)|[(H1 & H2 & ->)|(H1 & ->)]]]; simpl.
  - by left.
  - right; by left.
  - right; right; by left.
  - right; right; by right.
Qed.

Lemma simulateYear_portfolioBalance i assets depl :
  let y := simulateYear settings incomeStreams startYear i assets depl in
  y_portfolioBalance y = sumBalances (y_currentAssets y).
Proof. intros y. subst y. by rewrite simulateYear_eq. Qed.

(** The depletion age is touched exactly in the years with a shortage. *)
Lemma simulateYear_depletionAge i assets depl :
  let y := simulateYear settings incomeStreams startYear i assets depl in
  (0 < y_shortage y /\
   y_depletionAge y = markDepleted depl (y_currentAge y)) \/
  (y_shortage y = 0 /\ y_depletionAge y = depl).
Proof.
  intros y.
  destruct (simulateYear_cases i assets depl)
    as [(H1 & H2 & Hc & Ha & Hs & Hd)|[(H1 & H2 & Hc & Ha & Hs & Hd)|
        [(H1 & H2 & Hc & Ha & Hs & Hd)|(H1 & Hc & Ha & Hs & Hd)]]];
    fold y in H1, Hc, Ha, Hs, Hd |- *.
  - by right.
  - left. split; [|done]. fold y in H2. rewrite Hs.
    apply (Qplus_lt_l _ _ (y_totalAvailable y)). by ring_simplify.
  - left. split; [|done]. by rewrite Hs.
  - by right.
Qed.
End ExactYearFacts.

(** X2.  In exact arithmetic, a year in which the person is not yet retired
    or the fixed income covers the expense withdraws nothing: the assets
    keep their balances after growth and contribution, no shortage is
    recorded, the depletion age is left as it was, and the breakdown shows
    a withdrawal of 0.  A surplus of income is not added to the assets. *)
Theorem X2_no_need_no_withdrawal :
  forall (settings : FinancialSettings Q) (incomeStreams : list (IncomeStream Q))
      (startYear : Z) (i : nat) (assets : list (Asset Q)) (depl : option Z),
    let y := simulateYear settings incomeStreams startYear i assets depl in
    (y_currentAge y < retirementAge settings)%Z \/
      (y_requiredAnnualExpense y <= y_totalFixedIncome y)%Q ->
    y_currentAssets y = y_grown y /\
    y_actualWithdrawal y = 0%Q /\
    y_shortage y = 0%Q /\
    y_depletionAge y = depl /\
    y_breakdown y !! "Portfolio Withdrawals" = Some 0%Q /\
    (y_portfolioBalance y == y_totalAvailable y)%Q.
Proof.
  intros settings incomeStreams startYear i assets depl y Hno.
  assert (Hneed : y_withdrawalNeeded y = 0%Q).
  { destruct (simulateYear_need settings incomeStreams startYear i assets depl)
      as [(Hret & Hgap & _)|(_ & Hn)]; fold_everywhere y; [|done].
    destruct Hno as [Hage|Hle].
    - subst y. rewrite simulateYear_eq in Hret, Hage. simpl in Hret, Hage.
      apply Z.leb_le in Hret. lia.
    - destruct (Qlt_not_le _ _ Hgap).
      apply (Qplus_le_l _ _ (y_totalFixedIncome y)). by ring_simplify. }
  destruct (simulateYear_cases settings incomeStreams startYear i assets depl)
    as [(H1 & _)|[(H1 & H2 & _)|[(H1 & _)|(_ & Hc & Ha & Hs & Hd)]]];
    fold_everywhere y.
  - rewrite Hneed in H1. by destruct (Qlt_irrefl 0).
  - rewrite Hneed in H2. destruct (Qlt_irrefl 0). by apply (Qlt_trans _ _ _ H1).
  - rewrite Hneed in H1. by destruct (Qlt_irrefl 0).
  - split; [done|]. split; [done|]. split; [done|]. split; [done|]. split.
    + subst y. rewrite simulateYear_eq in Ha, Hs |- *. simpl in Ha, Hs |- *.
      rewrite finishBreakdown_withdrawals, Ha. reflexivity.
    + pose proof (simulateYear_portfolioBalance settings incomeStreams
                    startYear i assets depl) as Hp. fold y in Hp. simpl in Hp.
      pose proof (proj1 (simulateYear_withdrawal settings incomeStreams
                    startYear i assets depl)) as Ht. fold y in Ht.
      rewrite Hp, Hc, Ht. reflexivity.
Qed.

Lemma X2_no_need_no_withdrawal_witness :
  let y := simulateYear (Scenario.settingsC 3000%Q) [] 2026 0
             Scenario.assetsC None in
  (y_currentAge y < retirementAge (Scenario.settingsC 3000%Q))%Z /\
  y_currentAssets y = y_grown y /\ y_shortage y = 0%Q.
Proof.
  intros y. split; [reflexivity|].
  destruct (X2_no_need_no_withdrawal (Scenario.settingsC 3000%Q) [] 2026 0%nat
              Scenario.assetsC None) as (Hc & _ & Hs & _).
  - left. reflexivity.
  - split; [exact Hc|exact Hs].
Defined.

(** ** The depletion age along a run *)

Section DepletionAlongRun.
Local Open Scope Q_scope.
Variable settings : FinancialSettings Q.
Variable incomeStreams : list (IncomeStream Q).
Variable startYear : Z.
Variable assets : list (Asset Q).

Abbreviation st_at := (stateAt settings incomeStreams startYear assets).
Abbreviation yr_at := (yearAt settings incomeStreams startYear assets).

Lemma stateAt_depletionAge k :
  l_depletionAge (st_at (S k)) = y_depletionAge (yr_at k).
Proof. by rewrite stateAt_S. Qed.

Lemma yearAt_age k :
  y_currentAge (yr_at k) = (currentAge settings + Z.of_nat k)%Z.
Proof. unfold yearAt. apply simulateYear_age. Qed.

Lemma markDepleted_is_Some depl age : markDepleted depl age <> None.
Proof. unfold markDepleted. by destruct depl as [a|]; simpl; [destruct (a =? 0)%Z|]. Qed.

(** What one year does to the depletion age. *)
Lemma yearAt_depletionAge k :
  (0 < y_shortage (yr_at k) /\
   l_depletionAge (st_at (S k))
   = markDepleted (l_depletionAge (st_at k))
       (currentAge settings + Z.of_nat k)%Z) \/
  (~ 0 < y_shortage (yr_at k) /\
   l_depletionAge (st_at (S k)) = l_depletionAge (st_at k)).
Proof.
  rewrite stateAt_depletionAge, <- yearAt_age. unfold yearAt.
  destruct (simulateYear_depletionAge settings incomeStreams startYear k
              (l_currentAssets (st_at k)) (l_depletionAge (st_at k)))
    as [[Hs Hd]|[Hs Hd]].
  - left. by split.
  - right. split; [|done]. rewrite Hs. apply Qlt_irrefl.
Qed.

Lemma depletionAge_None_iff k :
  l_depletionAge (st_at k) = None <->
  forall j, (j < k)%nat -> ~ 0 < y_shortage (yr_at j).
Proof.
  induction k as [|k IH].
  - split; [intros _ j Hj; lia|done].
  - destruct (yearAt_depletionAge k) as [[Hs Hd]|[Hs Hd]]; rewrite Hd.
    + split; [by intros ?%markDepleted_is_Some|].
      intros Hall. destruct (Hall k); [lia|done].
    + rewrite IH. split.
      * intros Hall j Hj. destruct (decide (j = k)) as [->|]; [done|].
        apply Hall. lia.
      * intros Hall j Hj. apply Hall. lia.
Qed.

(** With a positive current age, the depletion age is the age of the first
    year with a shortage. *)
Lemma depletionAge_Some_iff k a :
  (0 < currentAge settings)%Z ->
  l_depletionAge (st_at k) = Some a <->
  exists j, (j < k)%nat /\ a = (currentAge settings + Z.of_nat j)%Z /\
    0 < y_shortage (yr_at j) /\
    forall j', (j' < j)%nat -> ~ 0 < y_shortage (yr_at j').
Proof.
  intros Hpos. revert a. induction k as [|k IH]; intros a.
  - split; [done|]. intros (j & Hj & _). lia.
  - destruct (yearAt_depletionAge k) as [[Hs Hd]|[Hs Hd]]; rewrite Hd.
    + destruct (l_depletionAge (st_at k)) as [a0|] eqn:E.
      * destruct (proj1 (IH a0) eq_refl) as (j0 & Hj0 & Ha0 & Hs0 & Hfirst0).
        rewrite markDepleted_nonzero by lia. split.
        -- intros [= <-]. exists j0. split; [lia|done].
        -- intros (j & Hj & Ha & Hsj & Hfirst). f_equal.
           destruct (Nat.lt_trichotomy j j0) as [Hlt|[->|Hgt]].
           ++ by destruct (Hfirst0 j).
           ++ congruence.
           ++ by destruct (Hfirst j0).
      * rewrite markDepleted_None.
        pose proof (proj1 (depletionAge_None_iff k) E) as Hnone. split.
        -- intros [= <-]. exists k. split; [lia|done].
        -- intros (j & Hj & Ha & Hsj & Hfirst). f_equal.
           destruct (decide (j = k)) as [->|Hne]; [done|].
           destruct (Hnone j); [lia|done].
    + rewrite IH. split.
      * intros (j & Hj & Hrest). exists j. split; [lia|done].
      * intros (j & Hj & Ha & Hsj & Hfirst). exists j.
        split; [|done]. destruct (decide (j = k)) as [->|]; [done|lia].
Qed.
End DepletionAlongRun.

(** X3.  In exact arithmetic, a run is a success iff no simulated year has
    a positive shortage (before rounding), and it has no depletion age in
    exactly the same case. *)
Theorem X3_success_iff_no_shortage :
  forall (startYear : Z) (settings : FinancialSettings Q)
      (assets : list (Asset Q)) (incomeStreams : list (IncomeStream Q)),
    let r := runSimulation startYear settings assets incomeStreams in
    let noShortage :=
      forall k, (k < Z.to_nat (yearsToRun settings))%nat ->
        ~ (0 < y_shortage (yearAt settings incomeStreams startYear assets k))%Q in
    (success r = true <-> noShortage) /\
    (depletionAge r = None <-> noShortage).
Proof.
  intros startYear settings assets incomeStreams r noShortage.
  assert (Hd : depletionAge r = None <-> noShortage).
  { subst r noShortage. unfold runSimulation. simpl.
    apply (depletionAge_None_iff settings incomeStreams startYear assets). }
  split; [|done]. rewrite <- Hd. subst r. unfold runSimulation. simpl.
  apply bool_decide_eq_true.
Qed.

(** X4.  In exact arithmetic and with a positive current age, the depletion
    age of a run is the age of the first simulated year with a positive
    shortage: later years with a shortage do not change it. *)
Theorem X4_depletionAge_is_first_shortfall :
  forall (startYear : Z) (settings : FinancialSettings Q)
      (assets : list (Asset Q)) (incomeStreams : list (IncomeStream Q))
      (a : Z),
    (0 < currentAge settings)%Z ->
    let r := runSimulation startYear settings assets incomeStreams in
    let shortage k :=
      y_shortage (yearAt settings incomeStreams startYear assets k) in
    depletionAge r = Some a <->
    exists k, (k < Z.to_nat (yearsToRun settings))%nat /\
      a = (currentAge settings + Z.of_nat k)%Z /\
      (0 < shortage k)%Q /\
      forall j, (j < k)%nat -> ~ (0 < shortage j)%Q.
Proof.
  intros startYear settings assets incomeStreams a Hpos r shortage.
  subst r shortage. unfold runSimulation. simpl.
  by apply (depletionAge_Some_iff settings incomeStreams startYear assets).
Qed.

Lemma X4_depletionAge_is_first_shortfall_witness :
  (0 < currentAge Scenario.settingsB)%Z /\
  exists k, (k < Z.to_nat (yearsToRun Scenario.settingsB))%nat /\
    65 = (currentAge Scenario.settingsB + Z.of_nat k)%Z /\
    (0 < y_shortage (yearAt Scenario.settingsB [] 2026 Scenario.assetsB k))%Q /\
    forall j, (j < k)%nat ->
      ~ (0 < y_shortage (yearAt Scenario.settingsB [] 2026 Scenario.assetsB j))%Q.
Proof.
  split; [reflexivity|].
  apply (X4_depletionAge_is_first_shortfall 2026 Scenario.settingsB
           Scenario.assetsB [] 65); reflexivity.
Defined.

(** X5.  The last record of a run is the year of the planning horizon and
    shows the rounded final balance; a run with no year to simulate
    ([planningHorizon < currentAge]) is a success without depletion age
    whose final balance is the sum of the balances passed in. *)
Theorem X5_final_balance :
  forall (num : Type) (N : Number num) (startYear : Z)
      (settings : FinancialSettings num) (assets : list (Asset num))
      (incomeStreams : list (IncomeStream num)),
    let r := runSimulation startYear settings assets incomeStreams in
    (forall yd, last (data r) = Some yd ->
       age yd = planningHorizon settings /\
       portfolioBalance yd = num_round (finalBalance r)) /\
    ((planningHorizon settings < currentAge settings)%Z ->
       r = {| success := true; depletionAge := None;
              finalBalance := sumBalances assets; data := [] |}).
Proof.
  intros num N startYear settings assets incomeStreams r. split.
  - intros yd Hlast. subst r. rewrite runSimulation_data in Hlast.
    unfold runSimulation. simpl.
    destruct (Z.to_nat (yearsToRun settings)) as [|n] eqn:En; [done|].
    rewrite seq_S, map_app in Hlast. simpl in Hlast.
    rewrite last_snoc in Hlast. injection Hlast as <-.
    fold (stateAt settings incomeStreams startYear assets (S n)).
    rewrite stateAt_S. simpl. split; [|done].
    unfold yearAt. rewrite simulateYear_age. unfold yearsToRun in En. lia.
  - intros Hlt. subst r. unfold runSimulation.
    replace (Z.to_nat (yearsToRun settings)) with 0%nat
      by (unfold yearsToRun; lia).
    reflexivity.
Qed.

Lemma X5_final_balance_witness :
  let settings : FinancialSettings Q :=
    {| currentAge := 65; retirementAge := 65; planningHorizon := 64;
       monthlySpending := 200%Q; inflationRate := 0%Q;
       preRetirementReturn := 0%Q |} in
  (planningHorizon settings < currentAge settings)%Z /\
  runSimulation 2026 settings Scenario.assetsB []
  = {| success := true; depletionAge := None;
       finalBalance := sumBalances Scenario.assetsB; data := [] |}.
Proof.
  intros settings. split; [reflexivity|].
  apply (X5_final_balance Q Q_Number 2026 settings Scenario.assetsB []).
  reflexivity.
Defined.

(** ** The assets along a run *)

Section AssetsAlongRun.
Context {num : Type} `{!Number num}.

Lemma sameAccount_map (f : Asset num -> Asset num) (l l0 : list (Asset num)) :
  (forall a, sameAccount (f a) a) ->
  Forall2 sameAccount l l0 -> Forall2 sameAccount (map f l) l0.
Proof.
  intros Hf. induction 1 as [|a b l l0 Hab _ IH]; simpl; constructor; [|done].
  destruct (Hf a) as (H1 & H2 & H3 & H4 & H5).
  destruct Hab as (G1 & G2 & G3 & G4 & G5).
  unfold sameAccount. by rewrite H1, H2, H3, H4, H5.
Qed.

Lemma sameAccount_set_balance (a : Asset num) b :
  sameAccount (set_balance a b) a.
Proof. by repeat split. Qed.

Lemma growAsset_sameAccount isRetired m (a : Asset num) :
  sameAccount (growAsset isRetired m a) a.
Proof. unfold growAsset. by destruct isRetired; repeat split. Qed.

Lemma executeWithdrawal_sameAccount need age depl (l l0 : list (Asset num)) :
  Forall2 sameAccount l l0 ->
  Forall2 sameAccount (w_assets (executeWithdrawal need age l depl)) l0.
Proof.
  intros Hl. unfold executeWithdrawal.
  repeat (match goal with |- context [if ?b then _ else _] => destruct b end);
    simpl; try done;
    apply sameAccount_map; try done; intros a; apply sameAccount_set_balance.
Qed.

Lemma stateAt_sameAccount settings incomeStreams startYear assets k :
  Forall2 sameAccount
    (l_currentAssets (stateAt settings incomeStreams startYear assets k))
    assets.
Proof.
  induction k as [|k IH].
  - simpl. apply Forall2_same_length_lookup_2; [done|].
    intros i a b Ha Hb. assert (a = b) as -> by congruence. by repeat split.
  - rewrite stateAt_S. unfold loopBody. rewrite simulateYear_eq. simpl.
    apply executeWithdrawal_sameAccount.
    apply sameAccount_map; [|done]. intros a. apply growAsset_sameAccount.
Qed.
End AssetsAlongRun.

(** X6.  Throughout a run the working copy holds the same accounts as the
    input, in the same order: the engine changes balances only, and never
    adds, drops or reorders an asset or alters its id, name, contribution,
    return rate or type. *)
Theorem X6_accounts_preserved :
  forall (num : Type) (N : Number num) (startYear : Z)
      (settings : FinancialSettings num) (assets : list (Asset num))
      (incomeStreams : list (IncomeStream num)) (k : nat),
    let y := yearAt settings incomeStreams startYear assets k in
    Forall2 sameAccount (y_grown y) assets /\
    Forall2 sameAccount (y_currentAssets y) assets /\
    length (y_currentAssets y) = length assets.
Proof.
  intros num N startYear settings assets incomeStreams k y.
  pose proof (stateAt_sameAccount settings incomeStreams startYear assets k)
    as Hk.
  pose proof (stateAt_sameAccount settings incomeStreams startYear assets (S k))
    as HSk.
  rewrite stateAt_S in HSk. simpl in HSk. fold y in HSk.
  split; [|split; [done|by apply Forall2_length in HSk]].
  subst y. unfold yearAt. rewrite simulateYear_eq. simpl.
  apply sameAccount_map; [|done]. intros a. apply growAsset_sameAccount.
Qed.

(** X7.  The keys of a year's breakdown are exactly: "Portfolio
    Withdrawals"; "Income Shortage" when the year's shortage is positive;
    and the names of the income streams active in that year, except the
    name "__proto__", under which an assignment creates no property. *)
Theorem X7_breakdown_keys :
  forall (num : Type) (N : Number num) (settings : FinancialSettings num)
      (incomeStreams : list (IncomeStream num)) (startYear : Z) (i : nat)
      (assets : list (Asset num)) (depl : option Z) (key : string),
    let y := simulateYear settings incomeStreams startYear i assets depl in
    is_Some (y_breakdown y !! key) <->
    key = "Portfolio Withdrawals" \/
    (key = "Income Shortage" /\ (y_shortage y >? 0)%num = true) \/
    (key <> "__proto__" /\
     exists stream, stream ∈ incomeStreams /\
       streamActive (y_currentAge y) stream = true /\
       stream_name stream = key).
Proof.
  intros num N settings incomeStreams startYear i assets depl key y.
  subst y. rewrite simulateYear_eq. simpl.
  rewrite <- income_breakdown_is_Some.
  destruct (decide (key = "Portfolio Withdrawals")) as [->|Hpw].
  { rewrite finishBreakdown_withdrawals. split; [by left|by eexists]. }
  destruct (decide (key = "Income Shortage")) as [->|His].
  { rewrite finishBreakdown_shortage.
    destruct (_ >? 0)%num.
    - split; [right; by left|by eexists].
    - split; [by right; right|]. intros [?|[[_ ?]|?]]; done. }
  rewrite finishBreakdown_other by done.
  split; [by right; right|]. intros [?|[[? _]|?]]; done.
Qed.

(** X8.  In exact arithmetic, a run without assets withdraws nothing and
    has balance 0 in every year, and the whole withdrawal need of a year is
    its shortage. *)
Theorem X8_no_assets :
  forall (startYear : Z) (settings : FinancialSettings Q)
      (incomeStreams : list (IncomeStream Q)) (k : nat),
    let r := runSimulation startYear settings [] incomeStreams in
    let y := yearAt settings incomeStreams startYear [] k in
    finalBalance r = 0%Q /\
    y_currentAssets y = [] /\
    y_actualWithdrawal y = 0%Q /\
    y_shortage y = y_withdrawalNeeded y /\
    withdrawals (yearData y) = 0%Q /\
    portfolioBalance (yearData y) = 0%Q.
Proof.
  intros startYear settings incomeStreams k r y.
  assert (Hnil : forall j,
            l_currentAssets (stateAt settings incomeStreams startYear [] j) = []).
  { intros j.
    pose proof (stateAt_sameAccount settings incomeStreams startYear [] j) as H.
    by apply Forall2_nil_inv_r in H. }
  assert (Hfinal : forall j,
            l_portfolioBalance (stateAt settings incomeStreams startYear [] j)
            = 0%Q).
  { intros [|j]; [reflexivity|].
    pose proof (Hnil (S j)) as HS. rewrite stateAt_S in HS |- *.
    unfold loopBody in HS |- *. simpl in HS |- *.
    rewrite simulateYear_portfolioBalance, HS. reflexivity. }
  split; [apply Hfinal|].
  pose proof (Hnil (S k)) as Hc. rewrite stateAt_S in Hc. simpl in Hc.
  subst y. unfold yearAt. rewrite (Hnil k) in Hc |- *.
  set (depl := l_depletionAge _) in *.
  set (y := simulateYear settings incomeStreams startYear k [] depl) in *.
  assert (Hg : y_grown y = []).
  { subst y. by rewrite simulateYear_eq. }
  assert (Ht : y_totalAvailable y = 0%Q).
  { subst y. rewrite simulateYear_eq. reflexivity. }
  assert (Hp : y_portfolioBalance y = 0%Q).
  { unfold y. rewrite simulateYear_portfolioBalance. fold y. by rewrite Hc. }
  assert (Has : y_actualWithdrawal y = 0%Q /\ y_shortage y = y_withdrawalNeeded y).
  { destruct (simulateYear_cases settings incomeStreams startYear k [] depl)
      as [(H1 & H2 & _)|[(H1 & _)|[(_ & _ & _ & Ha & Hs & _)|(H1 & _ & Ha & Hs & _)]]];
      fold_everywhere y.
    - rewrite Ht in H2. destruct (Qlt_not_le _ _ H1 H2).
    - rewrite Ht in H1. destruct (Qlt_irrefl _ H1).
    - done.
    - split; [done|]. rewrite Hs.
      destruct (simulateYear_need settings incomeStreams startYear k [] depl)
        as [(_ & Hgap & Hn)|(_ & Hn)]; fold_everywhere y.
      + rewrite Hn in H1. by destruct H1.
      + by rewrite Hn. }
  destruct Has as [Ha Hs].
  split; [done|]. split; [done|]. split; [done|].
  unfold yearData. simpl. rewrite Ha, Hp. split; reflexivity.
Qed.

(** * Properties of the callers of the engine *)

(** ** The summary of a run *)

Section SummaryFacts.
Context {num : Type} `{!Number num}.

Lemma filterWithIndex_seq {A} (f : A -> nat -> bool) (g : nat -> A) n i :
  filterWithIndex f (map g (seq i n)) i
  = map g (filter (fun k => f (g k) k = true) (seq i n)).
Proof.
  revert i. induction n as [|n IH]; intros i; [done|].
  simpl. rewrite IH. destruct (f (g i) i) eqn:E.
  - by rewrite filter_cons_True.
  - rewrite filter_cons_False; [done|]. by rewrite E.
Qed.

Lemma summarizedData_run startYear settings assets incomeStreams :
  let record k :=
    yearData (yearAt settings incomeStreams startYear assets k) in
  summarizedData settings
    (runSimulation startYear settings assets incomeStreams)
  = map (fun k => {| s_age := age (record k);
                     s_balance := num_round (portfolioBalance (record k));
                     s_shortfall := num_round (shortfall (record k)) |})
        (filter (fun k => keptInSummary settings (record k) k = true)
           (seq 0 (Z.to_nat (yearsToRun settings)))).
Proof.
  intros record. unfold summarizedData.
  rewrite runSimulation_data, filterWithIndex_seq, map_map. done.
Qed.
End SummaryFacts.

(** X10.  The summary of a run lists, in increasing order of age, exactly
    the simulated years whose index is a multiple of 5, whose age is the
    retirement age, or whose recorded balance is at most 0.  Hence it
    starts with the first simulated year, and it has a row for the
    retirement age iff that age lies between the current age and the
    planning horizon. *)
Theorem X10_summary_years :
  forall (num : Type) (N : Number num) (startYear : Z)
      (settings : FinancialSettings num) (assets : list (Asset num))
      (incomeStreams : list (IncomeStream num)),
    let r := runSimulation startYear settings assets incomeStreams in
    let kept (k : nat) :=
      (k mod 5 = 0)%nat \/
      (currentAge settings + Z.of_nat k)%Z = retirementAge settings \/
      (portfolioBalance
         (yearData (yearAt settings incomeStreams startYear assets k))
       <=? 0)%num = true in
    let ages := map s_age (summarizedData settings r) in
    ages = map (fun k => (currentAge settings + Z.of_nat k)%Z)
             (filter kept (seq 0 (Z.to_nat (yearsToRun settings)))) /\
    head ages = (if decide (data r = []) then None
                 else Some (currentAge settings)) /\
    (retirementAge settings ∈ ages <->
     (currentAge settings <= retirementAge settings
      <= planningHorizon settings)%Z).
Proof.
  intros num N startYear settings assets incomeStreams r kept ages.
  assert (Hages : ages = map (fun k => (currentAge settings + Z.of_nat k)%Z)
             (filter kept (seq 0 (Z.to_nat (yearsToRun settings))))).
  { subst ages r. rewrite summarizedData_run, map_map. simpl.
    erewrite map_ext; [|intros k; unfold yearAt; apply simulateYear_age].
    f_equal. apply list_filter_iff. intros k. subst kept.
    unfold keptInSummary. simpl.
    rewrite !orb_true_iff, Nat.eqb_eq, Z.eqb_eq.
    unfold yearAt at 1. rewrite simulateYear_age. tauto. }
  split; [done|]. split.
  - rewrite Hages. subst r. rewrite runSimulation_data.
    destruct (Z.to_nat (yearsToRun settings)) as [|n]; [done|].
    change (seq 0 (S n)) with (0%nat :: seq 1 n).
    rewrite filter_cons_True by (left; reflexivity).
    rewrite decide_False by done. simpl. f_equal. lia.
  - rewrite Hages, list_elem_of_fmap. split.
    + intros (k & Hk & [_ Hin]%list_elem_of_filter).
      apply elem_of_seq in Hin. unfold yearsToRun in Hin. lia.
    + intros Hrange.
      exists (Z.to_nat (retirementAge settings - currentAge settings)).
      split; [lia|]. apply list_elem_of_filter. split.
      * right; left. lia.
      * apply elem_of_seq. unfold yearsToRun. lia.
Qed.

Lemma Qround_half_up_inject_Z (z : Z) :
  Qround_half_up (inject_Z z) = inject_Z z.
Proof.
  unfold Qround_half_up. f_equal. unfold Qfloor, Qplus, inject_Z. simpl.
  rewrite Z.mul_1_r. change (Z.pos (1 * 2)) with 2%Z.
  symmetry. apply Z.div_unique with (r := 1%Z); lia.
Qed.

Lemma Qround_half_up_idem (x : Q) :
  Qround_half_up (Qround_half_up x) = Qround_half_up x.
Proof. unfold Qround_half_up at 2 3. apply Qround_half_up_inject_Z. Qed.

(** X11.  In exact arithmetic, a row of the summary of a run carries the
    age, the balance and the shortfall exactly as the year's record has
    them (rounding the rounded values again changes nothing), and every
    year whose recorded balance is at most 0 has its row. *)
Theorem X11_summary_rows :
  forall (startYear : Z) (settings : FinancialSettings Q)
      (assets : list (Asset Q)) (incomeStreams : list (IncomeStream Q)),
    let r := runSimulation startYear settings assets incomeStreams in
    let rowOf (yd : YearData Q) :=
      {| s_age := age yd; s_balance := portfolioBalance yd;
         s_shortfall := shortfall yd |} in
    (forall row, row ∈ summarizedData settings r ->
       exists yd, yd ∈ data r /\ row = rowOf yd) /\
    (forall yd, yd ∈ data r -> (portfolioBalance yd <= 0)%Q ->
       rowOf yd ∈ summarizedData settings r).
Proof.
  intros startYear settings assets incomeStreams r rowOf.
  assert (Hrow : forall k,
    {| s_age := age (yearData (yearAt settings incomeStreams startYear assets k));
       s_balance := num_round (portfolioBalance
         (yearData (yearAt settings incomeStreams startYear assets k)));
       s_shortfall := num_round (shortfall
         (yearData (yearAt settings incomeStreams startYear assets k))) |}
    = rowOf (yearData (yearAt settings incomeStreams startYear assets k))).
  { intros k. subst rowOf. unfold yearData. simpl.
    change (@num_round Q Q_Number) with Qround_half_up.
    by rewrite !Qround_half_up_idem. }
  subst r. rewrite summarizedData_run, runSimulation_data. split.
  - intros row (k & -> & [_ Hin]%list_elem_of_filter)%list_elem_of_fmap.
    eexists. split; [|apply Hrow].
    apply list_elem_of_fmap. by exists k.
  - intros yd (k & -> & Hin)%list_elem_of_fmap Hle.
    apply list_elem_of_fmap. exists k. split; [by rewrite Hrow|].
    apply list_elem_of_filter. split; [|done].
    unfold keptInSummary. rewrite !orb_true_iff. right.
    by apply Qle_bool_iff.
Qed.

Lemma X11_summary_rows_witness :
  let r := runSimulation 2026 Scenario.settingsB Scenario.assetsB [] in
  let yd := yearData (yearAt Scenario.settingsB [] 2026 Scenario.assetsB 1) in
  yd ∈ data r /\ (portfolioBalance yd <= 0)%Q /\
  {| s_age := age yd; s_balance := portfolioBalance yd;
     s_shortfall := shortfall yd |} ∈ summarizedData Scenario.settingsB r.
Proof.
  intros r yd.
  assert (Hin : yd ∈ data r).
  { subst r. rewrite runSimulation_data. apply list_elem_of_fmap.
    exists 1%nat. split; [reflexivity|]. apply elem_of_seq.
    vm_compute. lia. }
  assert (Hle : (portfolioBalance yd <= 0)%Q) by (vm_compute; discriminate).
  split; [exact Hin|]. split; [exact Hle|].
  exact (proj2 (X11_summary_rows 2026 Scenario.settingsB Scenario.assetsB [])
           yd Hin Hle).
Defined.

(** ** Scenario handling *)

Section AppFacts.
Context {num : Type} `{!Number num}.

Lemma find_scenario_at (l : list (Scenario num)) (a : string) k s :
  NoDup (map sc_id l) -> l !! k = Some s -> sc_id s = a ->
  list_find (fun s => sc_id s = a) l = Some (k, s).
Proof.
  intros Hnd Hk Hs. apply list_find_Some. split; [done|]. split; [done|].
  intros j y Hj Hlt Hy.
  assert (j = k); [|lia].
  apply (NoDup_lookup (map sc_id l) j k a); [done|..];
    rewrite list_lookup_fmap; [by rewrite Hj, <- Hy|by rewrite Hk, <- Hs].
Qed.

Lemma active_scenario_at (st : AppState num) :
  activeScenarioId st ∈ map sc_id (scenarios st) ->
  exists k s, scenarios st !! k = Some s /\ sc_id s = activeScenarioId st.
Proof.
  intros (s & Hs & [k Hk]%list_elem_of_lookup)%list_elem_of_fmap.
  by exists k, s.
Qed.

Lemma neighbour_lt direction k n : (k < n)%nat -> (neighbour direction k n < n)%nat.
Proof.
  intros Hk. destruct direction; unfold neighbour.
  - destruct (Nat.eqb_spec k 0); lia.
  - destruct (Nat.eqb_spec (S k) n); lia.
Qed.

Lemma neighbour_opposite direction k n :
  (k < n)%nat -> neighbour (opposite direction) (neighbour direction k n) n = k.
Proof.
  intros Hk. destruct direction; unfold opposite, neighbour.
  - destruct (Nat.eqb_spec k 0).
    + destruct (Nat.eqb_spec (S (n - 1)) n); lia.
    + destruct (Nat.eqb_spec (S (k - 1)) n); lia.
  - destruct (Nat.eqb_spec (S k) n).
    + destruct (Nat.eqb_spec 0 0); lia.
    + destruct (Nat.eqb_spec (S k) 0); lia.
Qed.

Lemma switchScenario_at direction (st : AppState num) k s :
  NoDup (map sc_id (scenarios st)) ->
  scenarios st !! k = Some s -> sc_id s = activeScenarioId st ->
  exists s',
    scenarios st !! neighbour direction k (length (scenarios st)) = Some s' /\
    switchScenario direction st
    = ({| scenarios := scenarios st; activeScenarioId := sc_id s' |}, Done).
Proof.
  intros Hnd Hk Hs.
  assert (Hlt : (k < length (scenarios st))%nat) by by eapply lookup_lt_Some.
  pose proof (neighbour_lt direction k _ Hlt) as Hn.
  destruct (lookup_lt_is_Some_2 _ _ Hn) as [s' Hs'].
  exists s'. split; [done|].
  unfold switchScenario, findIndex.
  rewrite (find_scenario_at _ _ k s Hnd Hk Hs).
  assert (Hidx : forall z : Z,
            z = Z.of_nat (neighbour direction k (length (scenarios st))) ->
            at_index (scenarios st) z = Some s').
  { intros z ->. unfold at_index.
    destruct (Z.ltb_spec (Z.of_nat (neighbour direction k (length (scenarios st)))) 0);
      [lia|]. by rewrite Nat2Z.id. }
  rewrite Hidx; [done|].
  destruct direction; unfold neighbour.
  - destruct (Nat.eqb_spec k 0) as [->|Hk0].
    + destruct (Z.ltb_spec (Z.of_nat 0 - 1) 0); [|lia].
      destruct (Z.leb_spec (Z.of_nat (length (scenarios st)))
                  (Z.of_nat (length (scenarios st)) - 1)); lia.
    + destruct (Z.ltb_spec (Z.of_nat k - 1) 0); [lia|].
      destruct (Z.leb_spec (Z.of_nat (length (scenarios st)))
                  (Z.of_nat k - 1)); lia.
  - destruct (Z.ltb_spec (Z.of_nat k + 1) 0); [lia|].
    destruct (Nat.eqb_spec (S k) (length (scenarios st))) as [He|Hne].
    + destruct (Z.leb_spec (Z.of_nat (length (scenarios st)))
                  (Z.of_nat k + 1)); lia.
    + destruct (Z.leb_spec (Z.of_nat (length (scenarios st)))
                  (Z.of_nat k + 1)); lia.
Qed.
End AppFacts.

(** X12.  On a state with distinct scenario ids and an active id that
    names a scenario, the one at index [k] say, switching to the next
    (previous) scenario succeeds and makes the scenario at index [k + 1]
    ([k - 1]) the active one, wrapping around at the ends of the list; it
    keeps the list of scenarios, leaves such a state again, changes the
    active scenario when there are two or more, and is undone by switching
    in the opposite direction. *)
Theorem X12_switchScenario_round_trip :
  forall (num : Type) (N : Number num) (direction : Direction)
      (st : AppState num),
    wellFormed st ->
    exists (k : nat) (s s' : Scenario num) (st' : AppState num),
      scenarios st !! k = Some s /\ sc_id s = activeScenarioId st /\
      scenarios st !! (match direction with
                       | next => if (S k =? length (scenarios st))%nat
                                 then 0 else S k
                       | prev => if (k =? 0)%nat
                                 then length (scenarios st) - 1 else k - 1
                       end)%nat = Some s' /\
      switchScenario direction st = (st', Done) /\
      st' = {| scenarios := scenarios st; activeScenarioId := sc_id s' |} /\
      wellFormed st' /\
      ((1 < length (scenarios st))%nat ->
       activeScenarioId st' <> activeScenarioId st) /\
      switchScenario (opposite direction) st' = (st, Done).
Proof.
  intros num N direction st (Hne & Hnd & Hact).
  destruct (active_scenario_at st Hact) as (k & s & Hk & Hs).
  destruct (switchScenario_at direction st k s Hnd Hk Hs) as (s' & Hk' & Hsw).
  assert (Hlt : (k < length (scenarios st))%nat) by by eapply lookup_lt_Some.
  exists k, s, s', {| scenarios := scenarios st; activeScenarioId := sc_id s' |}.
  split; [done|]. split; [done|].
  split; [by destruct direction|].
  split; [done|]. split; [done|]. split; [|split].
  - split; [done|]. split; [done|]. simpl.
    apply list_elem_of_fmap. exists s'. split; [done|].
    by eapply list_elem_of_lookup_2.
  - simpl. intros Hlen Heq.
    assert (Hsame : neighbour direction k (length (scenarios st)) = k).
    { apply (NoDup_lookup (map sc_id (scenarios st)) _ _ (sc_id s)); [done|..];
        rewrite list_lookup_fmap; [|by rewrite Hk].
      rewrite Hk'. simpl. by rewrite Heq, Hs. }
    revert Hsame. destruct direction; unfold neighbour.
    + destruct (Nat.eqb_spec k 0); lia.
    + destruct (Nat.eqb_spec (S k) (length (scenarios st))); lia.
  - destruct (switchScenario_at (opposite direction)
                {| scenarios := scenarios st; activeScenarioId := sc_id s' |}
                (neighbour direction k (length (scenarios st))) s' Hnd Hk' eq_refl)
      as (s'' & Hk'' & Hsw').
    simpl in Hk'', Hsw'. rewrite neighbour_opposite in Hk'' by done.
    rewrite Hsw'. assert (s'' = s) as -> by congruence.
    rewrite Hs. by destruct st.
Qed.

Lemma X12_switchScenario_round_trip_witness :
  let base : Scenario Q :=
    {| sc_id := "default"; sc_name := "Base Plan";
       sc_assets := Scenario.assetsB; sc_incomeStreams := [];
       sc_settings := Scenario.settingsB; sc_createdAt := 0 |} in
  let copy : Scenario Q :=
    {| sc_id := "k3j9x"; sc_name := "Base Plan (Copy)";
       sc_assets := Scenario.assetsB; sc_incomeStreams := [];
       sc_settings := Scenario.settingsB; sc_createdAt := 1 |} in
  let st : AppState Q :=
    {| scenarios := [base; copy]; activeScenarioId := "k3j9x" |} in
  wellFormed st /\
  exists st' : AppState Q,
    switchScenario next st = (st', Done) /\
    switchScenario prev st' = (st, Done).
Proof.
  intros base copy st.
  assert (Hwf : wellFormed st).
  { split; [discriminate|]. split; simpl.
    - apply NoDup_cons. split; [|apply NoDup_singleton].
      intros Hin%list_elem_of_singleton. discriminate.
    - right. left. }
  split; [exact Hwf|].
  destruct (X12_switchScenario_round_trip Q Q_Number next st Hwf)
    as (k & s & s' & st' & _ & _ & _ & H1 & _ & _ & _ & H2).
  exists st'. split; [exact H1|exact H2].
Defined.

Section DeleteFacts.
Context {num : Type} `{!Number num}.

Lemma ids_filter_NoDup (P : Scenario num -> Prop) `{forall s, Decision (P s)}
    (l : list (Scenario num)) :
  NoDup (map sc_id l) -> NoDup (map sc_id (filter P l)).
Proof.
  induction l as [|s l IH]; [done|]. simpl.
  intros [Hs Hnd]%NoDup_cons.
  destruct (decide (P s)).
  - rewrite filter_cons_True by done. simpl. apply NoDup_cons.
    split; [|by apply IH].
    intros (s' & Hid & [_ Hin]%list_elem_of_filter)%list_elem_of_fmap.
    apply Hs. apply list_elem_of_fmap. by exists s'.
  - rewrite filter_cons_False by done. by apply IH.
Qed.

Lemma filter_other_ids_nonempty (id : string) (l : list (Scenario num)) :
  NoDup (map sc_id l) -> (1 < length l)%nat ->
  filter (fun s => sc_id s <> id) l <> [].
Proof.
  destruct l as [|s1 [|s2 l]]; simpl; [lia..|].
  intros [Hs1 _]%NoDup_cons _.
  destruct (decide (sc_id s1 = id)) as [H1|H1].
  - rewrite filter_cons_False by (by intros ?).
    rewrite filter_cons_True; [done|].
    intros H2. apply Hs1. rewrite H1, <- H2. left.
  - by rewrite filter_cons_True.
Qed.
End DeleteFacts.

(** X13.  On a state with distinct scenario ids and an active id that
    names a scenario, deleting a scenario never raises, leaves such a
    state again (in particular at least one scenario and a valid active
    id), does nothing when only one scenario is left, and otherwise
    removes the scenario with the given id and no other, keeping the
    active scenario unless it is the one deleted. *)
Theorem X13_handleDeleteScenario :
  forall (num : Type) (N : Number num) (id : string) (st : AppState num),
    wellFormed st ->
    let st' := (handleDeleteScenario id st).1 in
    (handleDeleteScenario id st).2 <> TypeError /\
    wellFormed st' /\
    ((length (scenarios st) <= 1)%nat -> st' = st) /\
    ((1 < length (scenarios st))%nat ->
       scenarios st' = filter (fun s => sc_id s <> id) (scenarios st) /\
       (activeScenarioId st <> id ->
        activeScenarioId st' = activeScenarioId st)).
Proof.
  intros num N id st (Hne & Hnd & Hact) st'. subst st'.
  unfold handleDeleteScenario.
  destruct (Nat.leb_spec (length (scenarios st)) 1) as [Hle|Hgt]; simpl.
  { split; [done|]. split; [done|]. split; [done|]. lia. }
  pose proof (filter_other_ids_nonempty id _ Hnd Hgt) as Hfne.
  pose proof (ids_filter_NoDup (fun s => sc_id s <> id) _ Hnd) as Hfnd.
  destruct (decide (activeScenarioId st = id)) as [Heq|Hneq].
  - destruct (filter _ (scenarios st)) as [|s l] eqn:E; [done|]. simpl.
    split; [done|]. split; [|split; [lia|done]].
    split; [done|]. split; [done|]. simpl. left.
  - simpl. split; [done|]. split; [|split; [lia|done]].
    split; [done|]. split; [done|]. simpl.
    apply list_elem_of_fmap in Hact as (s & Hs & Hin).
    apply list_elem_of_fmap. exists s. split; [done|].
    apply list_elem_of_filter. split; [congruence|done].
Qed.

Lemma X13_handleDeleteScenario_witness :
  let base : Scenario Q :=
    {| sc_id := "default"; sc_name := "Base Plan";
       sc_assets := Scenario.assetsB; sc_incomeStreams := [];
       sc_settings := Scenario.settingsB; sc_createdAt := 0 |} in
  let copy : Scenario Q :=
    {| sc_id := "k3j9x"; sc_name := "Base Plan (Copy)";
       sc_assets := Scenario.assetsB; sc_incomeStreams := [];
       sc_settings := Scenario.settingsB; sc_createdAt := 1 |} in
  let st : AppState Q :=
    {| scenarios := [base; copy]; activeScenarioId := "k3j9x" |} in
  wellFormed st /\ wellFormed (handleDeleteScenario "k3j9x" st).1.
Proof.
  intros base copy st.
  assert (Hwf : wellFormed st).
  { split; [discriminate|]. split; simpl.
    - apply NoDup_cons. split; [|apply NoDup_singleton].
      intros Hin%list_elem_of_singleton. discriminate.
    - right. left. }
  split; [exact Hwf|].
  apply (X13_handleDeleteScenario Q Q_Number "k3j9x" st Hwf).
Defined.

(** X14.  The guard of the deletion counts scenarios, not ids: when two
    or more scenarios all carry the id that is deleted and that id is the
    active one, the deletion removes them all, the list of scenarios
    becomes empty, and reading the id of its first element raises. *)
Theorem X14_handleDeleteScenario_duplicate_ids :
  forall (num : Type) (N : Number num) (id : string) (st : AppState num),
    (1 < length (scenarios st))%nat ->
    (forall s, s ∈ scenarios st -> sc_id s = id) ->
    activeScenarioId st = id ->
    handleDeleteScenario id st
    = ({| scenarios := []; activeScenarioId := id |}, TypeError).
Proof.
  intros num N id st Hlen Hall Hact. unfold handleDeleteScenario.
  destruct (Nat.leb_spec (length (scenarios st)) 1); [lia|].
  rewrite filter_none by (intros s Hs Hne; by apply Hne, Hall).
  rewrite decide_True by done. by rewrite Hact.
Qed.

Lemma X14_handleDeleteScenario_duplicate_ids_witness :
  let plan : Scenario Q :=
    {| sc_id := "default"; sc_name := "Base Plan";
       sc_assets := Scenario.assetsB; sc_incomeStreams := [];
       sc_settings := Scenario.settingsB; sc_createdAt := 0 |} in
  let st : AppState Q :=
    {| scenarios := [plan; plan]; activeScenarioId := "default" |} in
  handleDeleteScenario "default" st
  = ({| scenarios := []; activeScenarioId := "default" |}, TypeError).
Proof.
  intros plan st.
  apply (X14_handleDeleteScenario_duplicate_ids Q Q_Number "default" st).
  - simpl. lia.
  - intros s Hs. apply list_elem_of_In in Hs. simpl in Hs.
    destruct Hs as [<-|[<-|[]]]; reflexivity.
  - reflexivity.
Defined.

(** ** Editing the active scenario *)

Section EditFacts.
Context {num : Type} `{!Number num}.

Lemma filter_all {A} (P : A -> Prop) `{forall x, Decision (P x)} (l : list A) :
  (forall x, x ∈ l -> P x) -> filter P l = l.
Proof.
  induction l as [|a l IH]; intros Hl; [done|].
  rewrite filter_cons_True by (apply Hl; left).
  f_equal. apply IH. intros x Hx. apply Hl. by right.
Qed.

Lemma same_id_same_scenario (l : list (Scenario num)) s s' :
  NoDup (map sc_id l) -> s ∈ l -> s' ∈ l -> sc_id s = sc_id s' -> s = s'.
Proof.
  intros Hnd [i Hi]%list_elem_of_lookup [j Hj]%list_elem_of_lookup Hid.
  assert (i = j) as ->; [|congruence].
  apply (NoDup_lookup (map sc_id l) i j (sc_id s)); [done|..];
    rewrite list_lookup_fmap; [by rewrite Hi|by rewrite Hj, Hid].
Qed.

Lemma activeScenario_wellFormed (st : AppState num) :
  wellFormed st ->
  exists s, activeScenario st = Some s /\ s ∈ scenarios st /\
    sc_id s = activeScenarioId st.
Proof.
  intros (_ & Hnd & Hact).
  destruct (active_scenario_at st Hact) as (k & s & Hk & Hs).
  exists s. unfold activeScenario.
  rewrite (find_scenario_at _ _ k s Hnd Hk Hs).
  split; [done|]. split; [by eapply list_elem_of_lookup_2|done].
Qed.

Lemma updateActiveScenario_ids assets (st : AppState num) :
  map sc_id (scenarios (updateActiveScenario (assetsUpdate assets) st))
  = map sc_id (scenarios st).
Proof.
  unfold updateActiveScenario. simpl. rewrite map_map.
  apply map_ext. intros s. by destruct (decide _).
Qed.

Lemma updateActiveScenario_wellFormed assets (st : AppState num) :
  wellFormed st -> wellFormed (updateActiveScenario (assetsUpdate assets) st).
Proof.
  intros (Hne & Hnd & Hact). unfold wellFormed.
  rewrite updateActiveScenario_ids. split; [|done].
  simpl. by destruct (scenarios st).
Qed.

(** The active scenario after its assets were replaced. *)
Lemma activeScenario_updated assets (st : AppState num) s :
  wellFormed st -> activeScenario st = Some s ->
  activeScenario (updateActiveScenario (assetsUpdate assets) st)
  = Some (applyUpdates s (assetsUpdate assets)).
Proof.
  intros Hwf Hs.
  destruct (activeScenario_wellFormed st Hwf) as (s0 & Hs0 & Hin & Hid).
  assert (s0 = s) as -> by congruence.
  destruct (proj1 (list_elem_of_lookup _ _) Hin) as [k Hk].
  pose proof (updateActiveScenario_wellFormed assets st Hwf) as (_ & Hnd' & _).
  unfold activeScenario.
  rewrite (find_scenario_at _ _ k (applyUpdates s (assetsUpdate assets)));
    [done|done| |done].
  simpl. rewrite list_lookup_fmap, Hk. simpl. by rewrite decide_True.
Qed.
End EditFacts.

(** X15.  On a state with distinct scenario ids and an active id that
    names a scenario, adding an account changes the active scenario only:
    the simulation shown afterwards is the engine's run on the old assets
    followed by an empty brokerage account, with the settings and income
    streams as they were, every other scenario is as before, and removing
    the new account again restores the state exactly, provided its id was
    not in use among the active scenario's assets. *)
Theorem X15_addAsset_removeAsset :
  forall (num : Type) (N : Number num) (startYear : Z) (newId : string)
      (st : AppState num) (active : Scenario num),
    wellFormed st ->
    activeScenario st = Some active ->
    (forall a, a ∈ sc_assets active -> asset_id a <> newId) ->
    let newAsset :=
      {| asset_id := newId; asset_name := "New Account";
         balance := num_of_Z 0; contribution := num_of_Z 0;
         returnRate := num_of_Z 7; asset_type := BROKERAGE |} in
    let st' := (addAsset newId st).1 in
    (addAsset newId st).2 = Done /\
    wellFormed st' /\
    simulationResult startYear st'
    = Some (runSimulation startYear (sc_settings active)
              (sc_assets active ++ [newAsset]) (sc_incomeStreams active)) /\
    (forall k s, scenarios st !! k = Some s ->
       sc_id s <> activeScenarioId st -> scenarios st' !! k = Some s) /\
    removeAsset newId st' = (st, Done).
Proof.
  intros num N startYear newId st active Hwf Hactive Hfresh newAsset st'.
  subst st'. unfold addAsset. rewrite Hactive. simpl. fold newAsset.
  set (assets' := sc_assets active ++ [newAsset]).
  pose proof (activeScenario_updated assets' st active Hwf Hactive) as Hact'.
  split; [done|]. split; [by apply updateActiveScenario_wellFormed|].
  split; [|split].
  - unfold simulationResult. by rewrite Hact'.
  - intros k s Hk Hne. simpl. rewrite list_lookup_fmap, Hk. simpl.
    by rewrite decide_False.
  - unfold removeAsset. rewrite Hact'. f_equal.
    assert (Hfilter : filter (fun a => asset_id a <> newId) assets'
                      = sc_assets active).
    { subst assets'. rewrite filter_app, filter_all by done.
      rewrite filter_cons_False by (intros Hne; by apply Hne).
      by rewrite filter_nil, app_nil_r. }
    simpl. rewrite Hfilter.
    destruct (activeScenario_wellFormed st Hwf) as (s0 & Hs0 & Hin & Hid).
    assert (s0 = active) as -> by congruence.
    destruct Hwf as (_ & Hnd & _).
    unfold updateActiveScenario. simpl. rewrite map_map.
    destruct st as [l a]. simpl in *. f_equal.
    rewrite <- (map_id l) at 2. apply map_ext_in. intros s Hs.
    apply list_elem_of_In in Hs.
    destruct (decide (sc_id s = a)) as [Heq|Hne].
    + assert (s = active) as ->.
      { apply (same_id_same_scenario l); [done..|congruence]. }
      simpl. rewrite decide_True by done. by destruct active.
    + by rewrite decide_False.
Qed.

Lemma X15_addAsset_removeAsset_witness :
  let base : Scenario Q :=
    {| sc_id := "default"; sc_name := "Base Plan";
       sc_assets := Scenario.assetsB; sc_incomeStreams := [];
       sc_settings := Scenario.settingsB; sc_createdAt := 0 |} in
  let st : AppState Q :=
    {| scenarios := [base]; activeScenarioId := "default" |} in
  removeAsset "0.4217" (addAsset "0.4217" st).1 = (st, Done).
Proof.
  intros base st.
  apply (X15_addAsset_removeAsset Q Q_Number 2026 "0.4217" st base).
  - split; [discriminate|]. split; simpl.
    + apply NoDup_singleton.
    + left.
  - reflexivity.
  - intros a Ha. apply list_elem_of_In in Ha. simpl in Ha.
    destruct Ha as [<-|[]]. discriminate.
Defined.

(** X16.  When the active id names no scenario, the first scenario is the
    one shown and simulated, but every change made to "the active
    scenario" is lost: [updateActiveScenario], and with it [addAsset] and
    [removeAsset], leave the state as it is. *)
Theorem X16_edits_lost_without_active_scenario :
  forall (num : Type) (N : Number num) (st : AppState num),
    activeScenarioId st ∉ map sc_id (scenarios st) ->
    activeScenario st = head (scenarios st) /\
    (forall updates, updateActiveScenario updates st = st) /\
    (forall newId, (addAsset newId st).1 = st) /\
    (forall id, (removeAsset id st).1 = st).
Proof.
  intros num N st Hnot.
  assert (Hnone : forall s, s ∈ scenarios st -> sc_id s <> activeScenarioId st).
  { intros s Hs Hid. apply Hnot. apply list_elem_of_fmap. by exists s. }
  assert (Hupd : forall updates, updateActiveScenario updates st = st).
  { intros updates. unfold updateActiveScenario. destruct st as [l a].
    simpl in *. f_equal. rewrite <- (map_id l) at 2.
    apply map_ext_in. intros s Hs%list_elem_of_In.
    rewrite decide_False; [done|]. by apply Hnone. }
  split; [|split; [done|split]].
  - unfold activeScenario.
    destruct (list_find _ _) as [[k s]|] eqn:E; [|done].
    apply list_find_Some in E as (Hk & Hs & _).
    destruct (Hnone s); [by eapply list_elem_of_lookup_2|done].
  - intros newId. unfold addAsset. destruct (activeScenario st); [|done].
    apply Hupd.
  - intros id. unfold removeAsset. destruct (activeScenario st); [|done].
    apply Hupd.
Qed.

Lemma X16_edits_lost_without_active_scenario_witness :
  let base : Scenario Q :=
    {| sc_id := "default"; sc_name := "Base Plan";
       sc_assets := Scenario.assetsB; sc_incomeStreams := [];
       sc_settings := Scenario.settingsB; sc_createdAt := 0 |} in
  let st : AppState Q :=
    {| scenarios := [base]; activeScenarioId := "imported" |} in
  activeScenario st = Some base /\ (addAsset "0.4217" st).1 = st.
Proof.
  intros base st.
  destruct (X16_edits_lost_without_active_scenario Q Q_Number st)
    as (Hactive & _ & Hadd & _).
  - simpl. intros Hin%list_elem_of_singleton. discriminate.
  - split; [exact Hactive|apply Hadd].
Defined.

(** ** The keys charted *)

Section KeyFacts.
Context {num : Type}.

Lemma addKey_elem (keys : list string) k x :
  x ∈ addKey keys k <-> x ∈ keys \/ x = k.
Proof.
  unfold addKey. destruct (decide (k ∈ keys)) as [Hin|Hnot].
  - split; [by left|]. intros [?| ->]; done.
  - rewrite elem_of_app, list_elem_of_singleton. done.
Qed.

Lemma addKey_NoDup (keys : list string) k : NoDup keys -> NoDup (addKey keys k).
Proof.
  intros Hnd. unfold addKey. destruct (decide (k ∈ keys)) as [Hin|Hnot]; [done|].
  apply NoDup_app. split; [done|]. split; [|apply NoDup_singleton].
  intros x Hx ->%list_elem_of_singleton. done.
Qed.

Lemma addKeys_elem (ks keys : list string) x :
  x ∈ fold_left addKey ks keys <-> x ∈ keys \/ x ∈ ks.
Proof.
  revert keys. induction ks as [|k ks IH]; intros keys; simpl.
  - split; [by left|]. intros [?|?%not_elem_of_nil]; done.
  - rewrite IH, addKey_elem, elem_of_cons. tauto.
Qed.

Lemma addKeys_NoDup (ks keys : list string) :
  NoDup keys -> NoDup (fold_left addKey ks keys).
Proof.
  revert keys. induction ks as [|k ks IH]; intros keys Hnd; [done|].
  simpl. by apply IH, addKey_NoDup.
Qed.

Lemma collectKeys_elem (keysOf : gmap string num -> list string)
    (ds : list (YearData num)) (keys : list string) x :
  x ∈ fold_left (fun keys d => fold_left addKey (keysOf (breakdown d)) keys)
        ds keys
  <-> x ∈ keys \/ exists d, d ∈ ds /\ x ∈ keysOf (breakdown d).
Proof.
  revert keys. induction ds as [|d ds IH]; intros keys; simpl.
  - split; [by left|]. intros [?|(d & ?%not_elem_of_nil & _)]; done.
  - rewrite IH, addKeys_elem. split.
    + intros [[?|?]|(d' & Hd' & Hx)]; [by left| |].
      * right. exists d. split; [left|done].
      * right. exists d'. split; [by right|done].
    + intros [?|(d' & [->|Hd']%elem_of_cons & Hx)].
      * left. by left.
      * left. by right.
      * right. by exists d'.
Qed.

Lemma collectKeys_NoDup (keysOf : gmap string num -> list string)
    (ds : list (YearData num)) (keys : list string) :
  NoDup keys ->
  NoDup (fold_left (fun keys d => fold_left addKey (keysOf (breakdown d)) keys)
           ds keys).
Proof.
  revert keys. induction ds as [|d ds IH]; intros keys Hnd; [done|].
  simpl. by apply IH, addKeys_NoDup.
Qed.

(** Sorting with [shortageLast] moves "Income Shortage" to the end and
    keeps the order of the other keys. *)
Lemma insertBy_other x (xs : list string) :
  x <> "Income Shortage" -> insertBy shortageLast x xs = x :: xs.
Proof.
  intros Hx. destruct xs as [|y xs]; [done|]. simpl.
  unfold shortageLast. rewrite decide_False by done.
  by destruct (decide (y = "Income Shortage")).
Qed.

Lemma insertBy_shortage (xs : list string) :
  insertBy shortageLast "Income Shortage" xs = xs ++ ["Income Shortage"].
Proof.
  induction xs as [|y xs IH]; [done|]. simpl. by rewrite IH.
Qed.

Lemma sortBy_shortageLast (xs : list string) :
  NoDup xs ->
  sortBy shortageLast xs
  = filter (fun k => k <> "Income Shortage") xs
    ++ (if decide ("Income Shortage" ∈ xs) then ["Income Shortage"] else []).
Proof.
  induction 1 as [|x xs Hx Hnd IH]; [done|]. simpl. rewrite IH.
  destruct (decide (x = "Income Shortage")) as [->|Hne].
  - rewrite insertBy_shortage.
    rewrite filter_cons_False by (intros Hne; by apply Hne).
    rewrite decide_False by done. rewrite decide_True by left.
    by rewrite app_nil_r.
  - rewrite insertBy_other by done. rewrite filter_cons_True by done.
    simpl. f_equal. destruct (decide ("Income Shortage" ∈ xs)) as [Hin|Hnot].
    + by rewrite decide_True by by right.
    + rewrite decide_False; [done|].
      intros [?|?]%elem_of_cons; [congruence|done].
Qed.
End KeyFacts.

(** X17.  Whatever the order in which the keys of an object are
    enumerated, the keys charted are without repetition, they are exactly
    the keys that occur in the breakdown of some year of the result, and
    "Income Shortage", when it occurs, is the last of them. *)
Theorem X17_incomeKeys :
  forall (num : Type) (keysOf : gmap string num -> list string)
      (result : SimulationResult num),
    (forall (m : gmap string num) k, k ∈ keysOf m <-> is_Some (m !! k)) ->
    let keys := incomeKeys keysOf result in
    NoDup keys /\
    (forall k, k ∈ keys <->
       exists yd, yd ∈ data result /\ is_Some (breakdown yd !! k)) /\
    ("Income Shortage" ∈ keys -> last keys = Some "Income Shortage").
Proof.
  intros num keysOf result HkeysOf keys. subst keys. unfold incomeKeys.
  set (collected := fold_left _ (data result) []).
  assert (Hnd : NoDup collected).
  { apply collectKeys_NoDup. constructor. }
  assert (Helem : forall k, k ∈ collected <->
            exists yd, yd ∈ data result /\ is_Some (breakdown yd !! k)).
  { intros k. subst collected. rewrite collectKeys_elem. split.
    - intros [?%not_elem_of_nil|(d & Hd & Hk)]; [done|].
      exists d. split; [done|]. by apply HkeysOf.
    - intros (d & Hd & Hk). right. exists d. split; [done|].
      by apply HkeysOf. }
  rewrite sortBy_shortageLast by done.
  assert (Hmem : forall k,
            k ∈ filter (fun k => k <> "Income Shortage") collected
                ++ (if decide ("Income Shortage" ∈ collected)
                    then ["Income Shortage"] else [])
            <-> k ∈ collected).
  { intros k. rewrite elem_of_app, list_elem_of_filter.
    destruct (decide ("Income Shortage" ∈ collected)) as [Hin|Hnot].
    - rewrite list_elem_of_singleton.
      destruct (decide (k = "Income Shortage")) as [->|Hne]; [tauto|tauto].
    - split; [intros [[_ ?]|?%not_elem_of_nil]; done|].
      intros Hk. left. split; [|done]. by intros ->. }
  split; [|split].
  - apply NoDup_app. split; [by apply NoDup_filter|]. split.
    + intros k [Hne _]%list_elem_of_filter.
      destruct (decide _); [|apply not_elem_of_nil].
      by intros ?%list_elem_of_singleton.
    + destruct (decide _); [apply NoDup_singleton|constructor].
  - intros k. by rewrite Hmem, Helem.
  - intros Hin. apply Hmem in Hin. rewrite decide_True by done.
    apply last_snoc.
Qed.

Lemma X17_incomeKeys_witness :
  let keysOf (m : gmap string Q) := elements (dom m) in
  let r := runSimulation 2026 Scenario.settingsB Scenario.assetsB [] in
  (forall (m : gmap string Q) k, k ∈ keysOf m <-> is_Some (m !! k)) /\
  NoDup (incomeKeys keysOf r).
Proof.
  intros keysOf r.
  assert (H : forall (m : gmap string Q) k, k ∈ keysOf m <-> is_Some (m !! k)).
  { intros m k. subst keysOf. simpl. rewrite elem_of_elements.
    apply elem_of_dom. }
  split; [exact H|].
  apply (X17_incomeKeys Q keysOf r H).
Defined.

(** ** Copying a scenario *)

(** X18.  On a state with distinct scenario ids and an active id that
    names a scenario, copying the active scenario under an unused id
    appends one scenario, which carries the new id, the name of the active
    scenario followed by " (Copy)" and the inputs of its JSON clone; it
    makes that scenario the active one, keeps every scenario that was there
    and leaves such a state again.  The copy simulates like the original
    when the JSON clone has the assets, income streams and settings of the
    original (which it need not: see [handleAddScenario]).  Deleting the
    copy gives back the former list of scenarios with its first scenario
    active, which need not be the one that was copied. *)
Theorem X18_handleAddScenario :
  forall (num : Type) (N : Number num)
      (jsonClone : Scenario num -> Scenario num) (startYear : Z)
      (newId : string) (now : Z) (st : AppState num),
    wellFormed st ->
    newId ∉ map sc_id (scenarios st) ->
    let st' := (handleAddScenario jsonClone newId now st).1 in
    (handleAddScenario jsonClone newId now st).2 = Done /\
    wellFormed st' /\
    activeScenarioId st' = newId /\
    (exists active copy,
       activeScenario st = Some active /\
       scenarios st' = scenarios st ++ [copy] /\
       activeScenario st' = Some copy /\
       sc_id copy = newId /\
       sc_name copy = String.append (sc_name active) " (Copy)" /\
       sc_assets copy = sc_assets (jsonClone active) /\
       sc_incomeStreams copy = sc_incomeStreams (jsonClone active) /\
       sc_settings copy = sc_settings (jsonClone active) /\
       (sc_assets (jsonClone active) = sc_assets active ->
        sc_incomeStreams (jsonClone active) = sc_incomeStreams active ->
        sc_settings (jsonClone active) = sc_settings active ->
        simulationResult startYear st' = simulationResult startYear st)) /\
    (exists first,
       head (scenarios st) = Some first /\
       handleDeleteScenario newId st'
       = ({| scenarios := scenarios st; activeScenarioId := sc_id first |},
          Done)).
Proof.
  intros num N jsonClone startYear newId now st Hwf Hfresh st'. subst st'.
  destruct (activeScenario_wellFormed st Hwf) as (active & Hactive & Hin & Hid).
  destruct Hwf as (Hne & Hnd & Hact).
  unfold handleAddScenario. rewrite Hactive. simpl.
  set (copy := {| sc_id := newId; sc_name := _;
                  sc_assets := sc_assets (jsonClone active);
                  sc_incomeStreams := sc_incomeStreams (jsonClone active);
                  sc_settings := sc_settings (jsonClone active);
                  sc_createdAt := now |}).
  assert (Hnd' : NoDup (map sc_id (scenarios st ++ [copy]))).
  { rewrite map_app. apply NoDup_app. split; [done|]. split.
    - intros x Hx ->%list_elem_of_singleton. done.
    - apply NoDup_singleton. }
  assert (Hcopy : activeScenario
                    {| scenarios := scenarios st ++ [copy];
                       activeScenarioId := newId |} = Some copy).
  { unfold activeScenario. simpl.
    by rewrite (find_scenario_at _ _ (length (scenarios st)) copy Hnd');
      [|by rewrite lookup_app_r, Nat.sub_diag by lia|]. }
  split; [done|]. split; [|split; [done|split]].
  - split; [by destruct (scenarios st)|]. split; [done|]. simpl.
    rewrite map_app. apply elem_of_app. right. left.
  - exists active, copy. do 8 (split; [done|]).
    intros Ha Hi Hs. unfold simulationResult.
    rewrite Hcopy, Hactive. simpl. by rewrite Ha, Hi, Hs.
  - destruct (scenarios st) as [|first l] eqn:E; [done|].
    exists first. split; [done|].
    unfold handleDeleteScenario. simpl.
    rewrite length_app. simpl.
    replace (length l + 1 <=? 0)%nat with false
      by (symmetry; apply Nat.leb_gt; lia).
    rewrite decide_True by done.
    assert (Hfilter : filter (fun s => sc_id s <> newId) ((first :: l) ++ [copy])
                      = first :: l).
    { rewrite filter_app, filter_all.
      - rewrite filter_cons_False by (intros Hn; by apply Hn).
        by rewrite filter_nil, app_nil_r.
      - intros s Hs Heq. apply Hfresh. apply list_elem_of_fmap. by exists s. }
    change (first :: l ++ [copy]) with ((first :: l) ++ [copy]).
    by rewrite Hfilter.
Qed.

Lemma X18_handleAddScenario_witness :
  let base : Scenario Q :=
    {| sc_id := "default"; sc_name := "Base Plan";
       sc_assets := Scenario.assetsB; sc_incomeStreams := [];
       sc_settings := Scenario.settingsB; sc_createdAt := 0 |} in
  let st : AppState Q :=
    {| scenarios := [base]; activeScenarioId := "default" |} in
  let st' := (handleAddScenario (fun s => s) "k3j9x" 1 st).1 in
  wellFormed st /\
  ("k3j9x" ∉ map sc_id (scenarios st)) /\
  activeScenarioId st' = "k3j9x" /\
  handleDeleteScenario "k3j9x" st' = (st, Done).
Proof.
  intros base st st'.
  assert (Hwf : wellFormed st).
  { split; [discriminate|]. split; simpl; [apply NoDup_singleton|left]. }
  assert (Hfresh : "k3j9x" ∉ map sc_id (scenarios st)).
  { simpl. intros Hin%list_elem_of_singleton. discriminate. }
  split; [exact Hwf|]. split; [exact Hfresh|].
  destruct (X18_handleAddScenario Q Q_Number (fun s => s) 2026 "k3j9x" 1 st
              Hwf Hfresh) as (_ & _ & Hid & _ & first & Hfirst & Hdel).
  split; [exact Hid|].
  injection Hfirst as <-. exact Hdel.
Defined.

(** * The engine and its settings *)

(** ** Changing the planning horizon *)

Section SettingsFacts.
Context {num : Type} `{!Number num}.

Lemma stateAt_withHorizon settings h incomeStreams startYear assets k :
  stateAt (withHorizon settings h) incomeStreams startYear assets k
  = stateAt settings incomeStreams startYear assets k.
Proof.
  induction k as [|k IH]; [done|].
  rewrite !stateAt_S, IH. reflexivity.
Qed.

Lemma yearAt_withHorizon settings h incomeStreams startYear assets k :
  yearAt (withHorizon settings h) incomeStreams startYear assets k
  = yearAt settings incomeStreams startYear assets k.
Proof. unfold yearAt. rewrite stateAt_withHorizon. reflexivity. Qed.
End SettingsFacts.

(** X19.  Moving the planning horizon further out does not change the
    years already simulated: the records of the shorter run are the first
    records of the longer one. *)
Theorem X19_longer_horizon_extends :
  forall (num : Type) (N : Number num) (startYear : Z)
      (settings : FinancialSettings num) (assets : list (Asset num))
      (incomeStreams : list (IncomeStream num)) (h : Z),
    (planningHorizon settings <= h)%Z ->
    let r := runSimulation startYear settings assets incomeStreams in
    let r' := runSimulation startYear (withHorizon settings h) assets
                incomeStreams in
    take (length (data r)) (data r') = data r.
Proof.
  intros num N startYear settings assets incomeStreams h Hle r r'.
  subst r r'. rewrite !runSimulation_data, length_map, length_seq.
  erewrite (map_ext (fun k => yearData (yearAt (withHorizon settings h) _ _ _ k)));
    [|intros k; by rewrite yearAt_withHorizon].
  set (n := Z.to_nat (yearsToRun settings)).
  set (n' := Z.to_nat (yearsToRun (withHorizon settings h))).
  assert (Hn : (n <= n')%nat).
  { subst n n'. unfold yearsToRun. simpl. lia. }
  replace n' with (n + (n' - n))%nat by lia.
  rewrite seq_app, map_app, take_app_length'; [done|].
  by rewrite length_map, length_seq.
Qed.

Lemma X19_longer_horizon_extends_witness :
  let r := runSimulation 2026 Scenario.settingsB Scenario.assetsB [] in
  let r' := runSimulation 2026 (withHorizon Scenario.settingsB 70)
              Scenario.assetsB [] in
  (planningHorizon Scenario.settingsB <= 70)%Z /\
  take (length (data r)) (data r') = data r.
Proof.
  intros r r'. split; [discriminate|].
  apply (X19_longer_horizon_extends Q Q_Number 2026 Scenario.settingsB
           Scenario.assetsB [] 70).
  discriminate.
Defined.

(** ** The years before retirement *)

Section BeforeRetirement.
Local Open Scope Q_scope.

(** A year before the retirement age only grows the accounts and adds the
    contributions: nothing is withdrawn, whatever the spending target and
    the income streams are. *)
Lemma simulateYear_before_retirement (settings : FinancialSettings Q)
    (incomeStreams : list (IncomeStream Q)) (startYear : Z) (i : nat)
    (assets : list (Asset Q)) (depl : option Z) :
  (currentAge settings + Z.of_nat i < retirementAge settings)%Z ->
  let y := simulateYear settings incomeStreams startYear i assets depl in
  y_currentAssets y
    = map (growAsset false (num_pow (1 + inflationRate settings / 100)%num i))
        assets /\
  y_actualWithdrawal y = 0 /\ y_shortage y = 0 /\ y_depletionAge y = depl.
Proof.
  intros Hage y. subst y. rewrite simulateYear_eq. simpl.
  replace (retirementAge settings <=? currentAge settings + Z.of_nat i)%Z
    with false by (symmetry; apply Z.leb_gt; lia).
  done.
Qed.

Lemma stateAt_before_retirement (settings settings' : FinancialSettings Q)
    (incomeStreams incomeStreams' : list (IncomeStream Q))
    (startYear startYear' : Z) (assets : list (Asset Q)) (k : nat) :
  currentAge settings' = currentAge settings ->
  retirementAge settings' = retirementAge settings ->
  inflationRate settings' = inflationRate settings ->
  (currentAge settings + Z.of_nat k <= retirementAge settings)%Z ->
  l_currentAssets (stateAt settings incomeStreams startYear assets k)
  = l_currentAssets (stateAt settings' incomeStreams' startYear' assets k) /\
  l_depletionAge (stateAt settings incomeStreams startYear assets k) = None.
Proof.
  intros Hc Hr Hi. induction k as [|k IH]; intros Hk; [done|].
  destruct IH as [IHa IHd]; [lia|].
  rewrite !stateAt_S. unfold loopBody. simpl.
  destruct (simulateYear_before_retirement settings incomeStreams startYear k
              (l_currentAssets (stateAt settings incomeStreams startYear assets k))
              (l_depletionAge (stateAt settings incomeStreams startYear assets k)))
    as (Ha & _ & _ & Hd); [lia|].
  destruct (simulateYear_before_retirement settings' incomeStreams' startYear' k
              (l_currentAssets (stateAt settings' incomeStreams' startYear' assets k))
              (l_depletionAge (stateAt settings' incomeStreams' startYear' assets k)))
    as (Ha' & _); [lia|].
  rewrite Ha, Ha', Hd, Hi, IHa. done.
Qed.
End BeforeRetirement.

(** X20.  In exact arithmetic, the years before the retirement age depend
    on the accounts, the current age, the retirement age and the inflation
    rate only: two runs that agree on these record the same portfolio
    balance in such a year, whatever their spending targets, income
    streams, planning horizons and calendar years are, and they record no
    withdrawal and no shortfall there. *)
Theorem X20_before_retirement :
  forall (startYear startYear' : Z) (settings settings' : FinancialSettings Q)
      (assets : list (Asset Q))
      (incomeStreams incomeStreams' : list (IncomeStream Q))
      (k : nat) (yd yd' : YearData Q),
    currentAge settings' = currentAge settings ->
    retirementAge settings' = retirementAge settings ->
    inflationRate settings' = inflationRate settings ->
    data (runSimulation startYear settings assets incomeStreams) !! k
      = Some yd ->
    data (runSimulation startYear' settings' assets incomeStreams') !! k
      = Some yd' ->
    (age yd < retirementAge settings)%Z ->
    age yd' = age yd /\
    portfolioBalance yd' = portfolioBalance yd /\
    withdrawals yd = 0%Q /\ shortfall yd = 0%Q.
Proof.
  intros startYear startYear' settings settings' assets incomeStreams
    incomeStreams' k yd yd' Hc Hr Hi Hyd Hyd' Hage.
  apply runSimulation_data_lookup in Hyd, Hyd'. subst yd yd'.
  unfold yearData, yearAt in *.
  cbn [age portfolioBalance withdrawals shortfall] in *.
  rewrite simulateYear_age in Hage. rewrite !simulateYear_age.
  assert (Hpb : forall (s : FinancialSettings Q) str sy a d,
             y_portfolioBalance (simulateYear s str sy k a d)
             = sumBalances (y_currentAssets (simulateYear s str sy k a d)))
    by (intros; by rewrite simulateYear_eq).
  destruct (stateAt_before_retirement settings settings' incomeStreams
              incomeStreams' startYear startYear' assets k Hc Hr Hi)
    as [Ha _]; [lia|].
  destruct (simulateYear_before_retirement settings incomeStreams startYear k
              (l_currentAssets (stateAt settings incomeStreams startYear assets k))
              (l_depletionAge (stateAt settings incomeStreams startYear assets k)))
    as (Hy & Hw & Hs & _); [lia|].
  destruct (simulateYear_before_retirement settings' incomeStreams' startYear' k
              (l_currentAssets (stateAt settings' incomeStreams' startYear' assets k))
              (l_depletionAge (stateAt settings' incomeStreams' startYear' assets k)))
    as (Hy' & _); [lia|].
  split; [by rewrite Hc|]. split.
  - by rewrite !Hpb, Hy, Hy', Hi, Ha.
  - by rewrite Hw, Hs.
Qed.

Lemma X20_before_retirement_witness :
  let r := runSimulation 2026 (Scenario.settingsC 3000%Q) Scenario.assetsC [] in
  let r' := runSimulation 2030 (Scenario.settingsC 5000%Q) Scenario.assetsC [] in
  portfolioBalance <$> data r' !! 1%nat = portfolioBalance <$> data r !! 1%nat.
Proof.
  intros r r'.
  destruct (data r !! 1%nat) as [yd|] eqn:E; [|discriminate].
  destruct (data r' !! 1%nat) as [yd'|] eqn:E'; [|discriminate].
  destruct (X20_before_retirement 2026 2030 (Scenario.settingsC 3000%Q)
              (Scenario.settingsC 5000%Q) Scenario.assetsC [] [] 1 yd yd')
    as (_ & Hp & _); [reflexivity|reflexivity|reflexivity|exact E|exact E'| |].
  - vm_compute in E. injection E as <-. reflexivity.
  - simpl. by rewrite Hp.
Defined.
